(** * Skill-Forge: the interactive Rubik's cube model, the sudoku input
      handler and the statistics sort, embedded from
      [InteractiveBoard.tsx] and [pages/GameStatistics.tsx]. *)

From Stdlib Require Import ZArith List String Ascii Bool Lia.
From Stdlib Require Import Permutation Sorted DecimalString.
From stdpp Require Import base option list gmap.
Import ListNotations.

Local Open Scope string_scope.
Local Open Scope Z_scope.

(** ** JavaScript values used by the model *)

(** Numbers that occur in the modelled code are small integers; they are
    modelled as [Z].  JavaScript's [-0] (produced by [-z] when [z] is [0])
    is [=== 0] and prints as [0], so it is identified with [0]. *)

(** A number interpolated into a template literal. *)
Definition numToString (n : Z) : string :=
  NilEmpty.string_of_int (Z.to_int n).

(** [for (let i = lo; i <= hi; i++)]: the values the loop variable takes. *)
Definition forRange (lo hi : Z) : list Z :=
  map (fun i => lo + Z.of_nat i) (seq 0 (Z.to_nat (hi - lo + 1))).

(** [s.indexOf(pat)]: the index of the first occurrence, [-1] if none. *)
Definition indexOf (s pat : string) : Z :=
  match String.index 0 pat s with
  | Some n => Z.of_nat n
  | None => -1
  end.

(** [arr[i]] for a number [i]; [None] is [undefined]. *)
Definition arrayGet {A : Type} (arr : list A) (i : Z) : option A :=
  if i <? 0 then None else nth_error arr (Z.to_nat i).

(** [Math.floor(Math.random() * len)]: the oracle's draw [r], reduced to an
    index below [len]. *)
Definition randomIndex (r : nat) (len : nat) : Z :=
  Z.of_nat (r mod len).

Module Cube.

(** ** Data model *)

(** The six property names of an orientation or sticker object. *)
Inductive Face := U | D | F | B | L | R.

Definition faces : list Face := [U; D; F; B; L; R].

(** The string a face label is written as in the source. *)
Definition label (f : Face) : string :=
  match f with
  | U => "U" | D => "D" | F => "F" | B => "B" | L => "L" | R => "R"
  end.

(** An object with one string-valued property per face: an orientation
    (values are face labels) or a sticker set (values are colours). *)
Record FaceMap := mkFaceMap {
  fU : string; fD : string; fF : string; fB : string; fL : string; fR : string
}.

(** Property access [obj[face]]. *)
Definition get (m : FaceMap) (f : Face) : string :=
  match f with
  | U => fU m | D => fD m | F => fF m | B => fB m | L => fL m | R => fR m
  end.

Definition values (m : FaceMap) : list string := map (get m) faces.

Definition Pos : Type := Z * Z * Z.

Record Cubie := mkCubie {
  pos : Pos;
  orientation : FaceMap;
  stickers : FaceMap;
  key : string
}.

(** [FACE_COLORS] *)
Definition FACE_COLORS : FaceMap :=
  {| fU := "#ffffff"; fD := "#ffd600"; fF := "#43a047";
     fB := "#1976d2"; fL := "#ff9800"; fR := "#e53935" |}.

(** [getInitialCubieColors(x, y, z)] *)
Definition getInitialCubieColors (x y z : Z) : FaceMap :=
  {| fU := if y =? 1 then fU FACE_COLORS else "#222";
     fD := if y =? -1 then fD FACE_COLORS else "#222";
     fF := if z =? 1 then fF FACE_COLORS else "#222";
     fB := if z =? -1 then fB FACE_COLORS else "#222";
     fL := if x =? -1 then fL FACE_COLORS else "#222";
     fR := if x =? 1 then fR FACE_COLORS else "#222" |}.

(** The keys of the [rotateOrientation] object. *)
Inductive AxisName := ax_x | ax_y | ax_z.

(** [rotateOrientation[name](ori, cw)] *)
Definition rotateOrientation (name : AxisName) (ori : FaceMap) (cw : bool)
  : FaceMap :=
  match name with
  | ax_x =>
      {| fU := if cw then fB ori else fF ori;
         fB := if cw then fD ori else fU ori;
         fD := if cw then fF ori else fB ori;
         fF := if cw then fU ori else fD ori;
         fL := fL ori;
         fR := fR ori |}
  | ax_y =>
      {| fF := if cw then fL ori else fR ori;
         fR := if cw then fB ori else fF ori;
         fB := if cw then fR ori else fL ori;
         fL := if cw then fF ori else fB ori;
         fU := fU ori;
         fD := fD ori |}
  | ax_z =>
      {| fU := if cw then fL ori else fR ori;
         fL := if cw then fD ori else fU ori;
         fD := if cw then fR ori else fL ori;
         fR := if cw then fU ori else fD ori;
         fF := fF ori;
         fB := fB ori |}
  end.

(** The initial orientation literal of [createSolvedCubeState]. *)
Definition identityOrientation : FaceMap :=
  {| fU := "U"; fD := "D"; fF := "F"; fB := "B"; fL := "L"; fR := "R" |}.

(** [createSolvedCubeState()]: three nested loops pushing one cubie each. *)
Definition createSolvedCubeState : list Cubie :=
  flat_map (fun x =>
    flat_map (fun y =>
      map (fun z =>
        {| pos := (x, y, z);
           orientation := identityOrientation;
           stickers := getInitialCubieColors x y z;
           key := (numToString x ++ "," ++ numToString y ++ ","
                   ++ numToString z)%string |})
        (forRange (-1) 1))
      (forRange (-1) 1))
    (forRange (-1) 1).

(** [['x', 'y', 'z'][axis]]; [None] is [undefined]. *)
Definition axisName (axis : Z) : option AxisName :=
  arrayGet [ax_x; ax_y; ax_z] axis.

(** The guard of the callback of [rotateLayer]. *)
Definition inLayer (axis value : Z) (p : Pos) : bool :=
  let '(x, y, z) := p in
  ((axis =? 0) && (x =? value)) || ((axis =? 1) && (y =? value))
  || ((axis =? 2) && (z =? value)).

(** The three conditional assignments to [newPos] in [rotateLayer]. *)
Definition rotatePos (axis : Z) (clockwise : bool) (p : Pos) : Pos :=
  let '(x, y, z) := p in
  let newPos := (x, y, z) in
  let newPos :=
    if axis =? 0
    then (x, if clockwise then - z else z, if clockwise then y else - y)
    else newPos in
  let newPos :=
    if axis =? 1
    then (if clockwise then z else - z, y, if clockwise then - x else x)
    else newPos in
  let newPos :=
    if axis =? 2
    then (if clockwise then - y else y, if clockwise then x else - x, z)
    else newPos in
  newPos.

(** The callback that [rotateLayer] maps over the cubies.  [None] is the
    [TypeError] of calling [rotateOrientation[undefined]]. *)
Definition rotateCubie (axis value : Z) (clockwise : bool) (cubie : Cubie)
  : option Cubie :=
  if inLayer axis value (pos cubie) then
    let newPos := rotatePos axis clockwise (pos cubie) in
    match axisName axis with
    | Some name =>
        let newOrientation :=
          rotateOrientation name (orientation cubie) clockwise in
        Some {| pos := newPos; orientation := newOrientation;
                stickers := stickers cubie; key := key cubie |}
    | None => None
    end
  else Some cubie.

(** [rotateLayer(cubies, axis, value, clockwise)] *)
Definition rotateLayer (cubies : list Cubie) (axis value : Z)
    (clockwise : bool) : option (list Cubie) :=
  mapM (rotateCubie axis value clockwise) cubies.

(** ** The component state and its three actions *)

(** One conditional [setCubies(c => rotateLayer(c, axis, value, clockwise))]
    of the [rotate] handler, applied to the pending state. *)
Definition setCubiesIf (cond : bool) (axis value : Z) (clockwise : bool)
    (c : option (list Cubie)) : option (list Cubie) :=
  if cond then
    match c with
    | Some cubies => rotateLayer cubies axis value clockwise
    | None => None
    end
  else c.

(** [rotate(layer, clockwise)]: six conditional state updates in a row. *)
Definition rotate (layer : string) (clockwise : bool) (cubies : list Cubie)
  : option (list Cubie) :=
  let c := Some cubies in
  let c := setCubiesIf (layer =? "U")%string 1 1 clockwise c in
  let c := setCubiesIf (layer =? "D")%string 1 (-1) clockwise c in
  let c := setCubiesIf (layer =? "F")%string 2 1 clockwise c in
  let c := setCubiesIf (layer =? "B")%string 2 (-1) clockwise c in
  let c := setCubiesIf (layer =? "L")%string 0 (-1) clockwise c in
  let c := setCubiesIf (layer =? "R")%string 0 1 clockwise c in
  c.

Definition moves : list string := ["U"; "D"; "F"; "B"; "L"; "R"].

(** The slice table [[1, -1, 1, -1, -1, 1]] of [scramble]. *)
Definition sliceTable : list Z := [1; -1; 1; -1; -1; 1].

(** The two random draws of one iteration of the loop of [scramble]. *)
Record Draw := mkDraw {
  pick : nat;       (* drives [Math.floor(Math.random() * moves.length)] *)
  coin : bool       (* [Math.random() > 0.5] *)
}.

(** [moves[Math.floor(Math.random() * moves.length)]]; an [undefined]
    element would be searched for as the string "undefined". *)
Definition drawMove (d : Draw) : string :=
  match arrayGet moves (randomIndex (pick d) (length moves)) with
  | Some move => move
  | None => "undefined"
  end.

(** The axis and slice arguments that [scramble] computes for a move:
    ['UDFBLR'.indexOf(move) % 3] and the table entry at
    ['UDFBLR'.indexOf(move)] ([None] when that entry is [undefined]). *)
Definition scrambleArgs (move : string) : Z * option Z :=
  (Z.rem (indexOf "UDFBLR" move) 3,
   arrayGet sliceTable (indexOf "UDFBLR" move)).

(** The call of [rotateLayer] in the body of the loop of [scramble].  An
    [undefined] slice value is [===] to no coordinate, so every cubie is
    copied. *)
Definition scrambleMove (move : string) (clockwise : bool)
    (tempCubies : list Cubie) : option (list Cubie) :=
  match scrambleArgs move with
  | (axis, Some value) => rotateLayer tempCubies axis value clockwise
  | (_, None) => Some tempCubies
  end.

(** The loop of [scramble], iteration [i] using the draws [rand i]. *)
Fixpoint scrambleLoop (rand : nat -> Draw) (i n : nat)
    (tempCubies : list Cubie) : option (list Cubie) :=
  match n with
  | O => Some tempCubies
  | S n' =>
      match scrambleMove (drawMove (rand i)) (coin (rand i)) tempCubies with
      | Some next => scrambleLoop rand (S i) n' next
      | None => None
      end
  end.

(** [scramble()]: twenty iterations, then [setCubies(tempCubies)]. *)
Definition scramble (rand : nat -> Draw) (cubies : list Cubie)
  : option (list Cubie) :=
  scrambleLoop rand 0 20 cubies.

(** The (axis, slice) pairs of the twenty [rotateLayer] calls of a
    scramble, in order. *)
Definition scrambleLayers (rand : nat -> Draw) : list (Z * option Z) :=
  map (fun i => scrambleArgs (drawMove (rand i))) (seq 0 20).

(** One iteration of the loop of [scramble] on the pending state, given
    the arguments of its call of [rotateLayer]. *)
Definition scrambleStep (c : option (list Cubie))
    (turn : Z * option Z * bool) : option (list Cubie) :=
  match c, turn with
  | Some cubies, (axis, Some value, cw) => rotateLayer cubies axis value cw
  | Some cubies, (_, None, _) => Some cubies
  | None, _ => None
  end.

(** [reset()]: [setCubies(createSolvedCubeState())]. *)
Definition reset (cubies : list Cubie) : list Cubie :=
  createSolvedCubeState.

(** One user action on the cube component. *)
Inductive step : list Cubie -> list Cubie -> Prop :=
| step_rotate layer clockwise c c' :
    rotate layer clockwise c = Some c' -> step c c'
| step_scramble rand c c' :
    scramble rand c = Some c' -> step c c'
| step_reset c :
    step c (reset c).

(** The states the component can be in: [useState(createSolvedCubeState())]
    followed by any number of actions. *)
Inductive reachable : list Cubie -> Prop :=
| reachable_init : reachable createSolvedCubeState
| reachable_step c c' : reachable c -> step c c' -> reachable c'.

(** ** Notions used to state the properties of the cube *)

(** The cubie that [rotateCubie] returns (it always returns one, see
    [rotateCubie_total]); the input cubie stands in for the error case. *)
Definition turnCubie (axis value : Z) (clockwise : bool) (cubie : Cubie)
  : Cubie :=
  match rotateCubie axis value clockwise cubie with
  | Some c => c
  | None => cubie
  end.

(** What a layer turn does to a position: [rotatePos] under the guard. *)
Definition turnPos (axis value : Z) (clockwise : bool) (p : Pos) : Pos :=
  if inLayer axis value p then rotatePos axis clockwise p else p.

(** [n] successive calls of [rotateLayer] with the same arguments. *)
Fixpoint rotateLayerTimes (n : nat) (cubies : list Cubie) (axis value : Z)
    (clockwise : bool) : option (list Cubie) :=
  match n with
  | O => Some cubies
  | S n' =>
      match rotateLayer cubies axis value clockwise with
      | Some next => rotateLayerTimes n' next axis value clockwise
      | None => None
      end
  end.

(** The 27 positions of the cube. *)
Definition cubePositions : list Pos :=
  flat_map (fun x => flat_map (fun y => map (fun z => (x, y, z)) [-1; 0; 1])
                       [-1; 0; 1]) [-1; 0; 1].

(** The cubies occupy exactly the 27 positions, each exactly once. *)
Definition occupiesCube (cubies : list Cubie) : Prop :=
  Permutation (map pos cubies) cubePositions.

(** [cubie.pos[axis]] *)
Definition coord (axis : Z) (p : Pos) : option Z :=
  let '(x, y, z) := p in arrayGet [x; y; z] axis.

(** The outward direction of each face of the cube, as
    [getInitialCubieColors] places the colours: [U] on [y = 1], [D] on
    [y = -1], [F] on [z = 1], [B] on [z = -1], [L] on [x = -1], [R] on
    [x = 1]. *)
Definition faceDir (f : Face) : Pos :=
  match f with
  | U => (0, 1, 0) | D => (0, -1, 0)
  | F => (0, 0, 1) | B => (0, 0, -1)
  | L => (-1, 0, 0) | R => (1, 0, 0)
  end.

Definition Pos_eqb (p q : Pos) : bool :=
  let '(x, y, z) := p in
  let '(x', y', z') := q in
  (x =? x') && (y =? y') && (z =? z').

(** The face a direction points to. *)
Definition dirFace (p : Pos) : option Face :=
  find (fun f => Pos_eqb (faceDir f) p) faces.

(** The face permutation induced by the position rotation of an axis: the
    face that direction [d] is carried to by [rotatePos]. *)
Definition turnFace (axis : Z) (clockwise : bool) (d : Face) : option Face :=
  dirFace (rotatePos axis clockwise (faceDir d)).

(** [after] is [before] relabelled along the position rotation: what faced
    direction [d] before the turn faces the rotated direction after it. *)
Definition relabelledAlong (axis : Z) (clockwise : bool)
    (before after : FaceMap) : Prop :=
  forall d d', turnFace axis clockwise d = Some d' ->
               get after d' = get before d.

(** An orientation is a bijection from the six faces onto the six face
    labels. *)
Definition bijective (ori : FaceMap) : Prop :=
  Permutation (values ori) (map label faces).

End Cube.

(** * The sudoku input handler of [InteractiveBoard] *)

Module Sudoku.

(** A character of the class [[lo-hi]]. *)
Definition inRange (lo hi c : ascii) : bool :=
  ((N_of_ascii lo <=? N_of_ascii c) && (N_of_ascii c <=? N_of_ascii hi))%N.

(** The fragment of regular expressions that the pattern uses. *)
Inductive Regex :=
| Bol                              (* ^ *)
| Eol                              (* $ *)
| Range (lo hi : ascii)            (* [lo-hi] *)
| Optional (r : Regex)             (* r? *)
| Concat (r1 r2 : Regex).

(** All ways to match [r] at the current offset: the rest of the input
    after each match, with whether the offset is still the start. *)
Fixpoint matchAt (r : Regex) (atStart : bool) (s : string)
  : list (bool * string) :=
  match r with
  | Bol => if atStart then [(atStart, s)] else []
  | Eol => match s with
           | EmptyString => [(atStart, s)]
           | String _ _ => []
           end
  | Range lo hi =>
      match s with
      | EmptyString => []
      | String c s' =>
          if inRange lo hi c then [(false, s')] else []
      end
  | Optional r' => matchAt r' atStart s ++ [(atStart, s)]
  | Concat r1 r2 =>
      flat_map (fun '(st, rest) => matchAt r2 st rest) (matchAt r1 atStart s)
  end.

(** [r.test(s)] from a given offset: a match at this offset or a later one. *)
Fixpoint testFrom (r : Regex) (atStart : bool) (s : string) : bool :=
  match matchAt r atStart s with
  | _ :: _ => true
  | [] =>
      match s with
      | EmptyString => false
      | String _ s' => testFrom r false s'
      end
  end.

Definition test (r : Regex) (s : string) : bool := testFrom r true s.

(** [/^[1-9]?$/] *)
Definition cellPattern : Regex :=
  Concat Bol (Concat (Optional (Range "1" "9")) Eol).

(** The state of [InteractiveBoard]. *)
Record BoardState := mkBoardState {
  isActive : bool;
  moves : list string;
  feedback : string
}.

(** [handleSudokuInput(row, col, value)]: the argument of the call of
    [setFeedback], or [None] when the handler returns before it. *)
Definition handleSudokuInput (st : BoardState) (row col : Z) (value : string)
  : option string :=
  if negb (isActive st) then None
  else if negb (test cellPattern value) then None
  else Some (if negb (value =? "")%string
             then ("Placed " ++ value ++ " at row " ++ numToString (row + 1)
                   ++ ", column " ++ numToString (col + 1))%string
             else "Cell cleared").

(** The state after the handler has run. *)
Definition afterSudokuInput (st : BoardState) (row col : Z) (value : string)
  : BoardState :=
  match handleSudokuInput st row col value with
  | Some msg => {| isActive := isActive st; moves := moves st;
                   feedback := msg |}
  | None => st
  end.

(** A string that consists of one decimal digit. *)
Definition isSingleDigit (s : string) : bool :=
  match s with
  | String c EmptyString => inRange "0" "9" c
  | _ => false
  end.

(** A string that consists of one digit from 1 to 9. *)
Definition isDigit1to9 (s : string) : bool :=
  match s with
  | String c EmptyString => inRange "1" "9" c
  | _ => false
  end.

(** An active board with no feedback yet. *)
Definition activeBoard : BoardState :=
  {| isActive := true; moves := []; feedback := "" |}.

End Sudoku.

(** * The sort of the statistics page, [GameStatistics] *)

Module Statistics.

(** The fields of [GameStat] that the page reads.  The data file is not part
    of the modelled sources, so the array [gameStats] is arbitrary. *)
Record GameStat := mkGameStat {
  id : string;
  name : string;
  totalTimePlayed : Z;
  accuracy : Z;
  totalWins : Z;
  totalLosses : Z;
  sessionDurations : list Z
}.

(** Arrays live in a store and are handled through references, so that
    sorting in place and copying can be told apart. *)
Definition Ref := nat.
Abbreviation Store := (gmap Ref (list GameStat)).

(** [Array.prototype.sort(cmp)] on the elements: the sort is stable, so
    for a consistent comparator its result is that of inserting every
    element before the first later element that does not compare below
    it. *)
Fixpoint insertSorted (cmp : GameStat -> GameStat -> Z) (a : GameStat)
    (sorted : list GameStat) : list GameStat :=
  match sorted with
  | [] => [a]
  | b :: rest =>
      if cmp a b <=? 0 then a :: b :: rest
      else b :: insertSorted cmp a rest
  end.

Fixpoint sortElements (cmp : GameStat -> GameStat -> Z)
    (arr : list GameStat) : list GameStat :=
  match arr with
  | [] => []
  | a :: rest => insertSorted cmp a (sortElements cmp rest)
  end.

(** [a] may stand before [b] for the comparator: [cmp(a, b) <= 0]. *)
Definition notAfter (cmp : GameStat -> GameStat -> Z) (a b : GameStat)
  : Prop :=
  cmp a b <= 0.

(** [[...src]]: a new array with the elements of [src]. *)
Definition spread (st : Store) (src : Ref) : option (Store * Ref) :=
  match st !! src with
  | Some arr =>
      let r := fresh (dom st) in
      Some (<[r := arr]> st, r)
  | None => None
  end.

(** [arr.sort(cmp)]: sorts the array in place and returns it. *)
Definition sort (cmp : GameStat -> GameStat -> Z) (st : Store) (arr : Ref)
  : option (Store * Ref) :=
  match st !! arr with
  | Some elements => Some (<[arr := sortElements cmp elements]> st, arr)
  | None => None
  end.

Section Page.

(** [String.prototype.localeCompare] depends on the locale of the
    browser. *)
Variable localeCompare : string -> string -> Z.

(** The comparator passed to [sort]. *)
Definition compareStats (sortBy : string) (a b : GameStat) : Z :=
  if (sortBy =? "name")%string then localeCompare (name a) (name b)
  else if (sortBy =? "totalTimePlayed")%string
       then totalTimePlayed b - totalTimePlayed a
  else if (sortBy =? "accuracy")%string then accuracy b - accuracy a
  else 0.

(** [const sortedStats = [...gameStats].sort(...)] *)
Definition sortedStats (st : Store) (gameStats : Ref) (sortBy : string)
  : option (Store * Ref) :=
  match spread st gameStats with
  | Some (st1, copy) => sort (compareStats sortBy) st1 copy
  | None => None
  end.

(** A comparator on names that is an order up to ties, as [sort]
    expects. *)
Definition consistent : Prop :=
  (forall s t, 0 < localeCompare s t -> localeCompare t s <= 0)
  /\ (forall s t u, localeCompare s t <= 0 -> localeCompare t u <= 0 ->
                    localeCompare s u <= 0).

End Page.

(** The order that the page shows for a sort key. *)
Definition ordered (localeCompare : string -> string -> Z) (sortBy : string)
    (l : list GameStat) : Prop :=
  if (sortBy =? "name")%string
  then StronglySorted (fun a b => localeCompare (name a) (name b) <= 0) l
  else if (sortBy =? "totalTimePlayed")%string
  then StronglySorted (fun a b => totalTimePlayed b <= totalTimePlayed a) l
  else if (sortBy =? "accuracy")%string
  then StronglySorted (fun a b => accuracy b <= accuracy a) l
  else True.

End Statistics.

(** * What the cube component draws *)

Module CubeView.
Import Cube.

(** [obj[name]] for a property name held in a string; [None] is
    [undefined]. *)
Definition getByName (m : FaceMap) (name : string) : option string :=
  option_map (get m) (find (fun f => (label f =? name)%string) faces).

(** [faceOrder] of [Cubie]. *)
Definition faceOrder : list Face := [R; L; F; B; U; D].

(** [colors] of [Cubie]: for each face of the mesh the sticker named by
    the orientation, [#222] when that is [undefined] or empty. *)
Definition cubieColors (orientation stickers : FaceMap) : list string :=
  map (fun face =>
         let globalFace := get orientation face in
         match getByName stickers globalFace with
         | Some color => if (color =? "")%string then "#222" else color
         | None => "#222"
         end)
      faceOrder.

(** The orientation with front and back, and left and right, exchanged. *)
Definition swapSides (ori : FaceMap) : FaceMap :=
  {| fU := fU ori; fD := fD ori; fF := fB ori; fB := fF ori;
     fL := fR ori; fR := fL ori |}.

(** The number of stickers of a cubie that carry a face colour. *)
Definition colouredCount (m : FaceMap) : Z :=
  Z.of_nat (List.length
              (List.filter (fun v => negb (v =? "#222")%string) (values m))).

End CubeView.

(** * The practice board: chess squares, sudoku cells, start and reset *)

Module Board.
Import Sudoku.

(** [String.fromCharCode(code)] for an integer [code]: the code unit
    [code mod 2^16].  The strings of this development hold the code units
    below 256; [None] is a code unit beyond them. *)
Definition fromCharCode (code : Z) : option string :=
  let unit := code mod 65536 in
  if unit <? 256 then Some (String (ascii_of_N (Z.to_N unit)) "")
  else None.

(** [useState(false)], [useState([])], [useState('')]. *)
Definition initialBoard : BoardState :=
  {| isActive := false; moves := []; feedback := "" |}.

(** [handleStart()] *)
Definition handleStart (st : BoardState) : BoardState :=
  {| isActive := true; moves := moves st;
     feedback := "Practice session started! Try making moves." |}.

(** [handleReset()] *)
Definition handleReset (st : BoardState) : BoardState :=
  {| isActive := false; moves := []; feedback := "" |}.

(** The template literal of [handleSquareClick]:
    [`${String.fromCharCode(97 + col)}${8 - row}`]. *)
Definition squareName (row col : Z) : option string :=
  match fromCharCode (97 + col) with
  | Some file => Some (file ++ numToString (8 - row))%string
  | None => None
  end.

(** [handleSquareClick(row, col)]: the state after the handler; [None]
    when the name of the square is beyond the strings of the model. *)
Definition handleSquareClick (st : BoardState) (row col : Z)
  : option BoardState :=
  if negb (isActive st) then Some st
  else
    match squareName row col with
    | Some move =>
        Some {| isActive := isActive st;
                moves := moves st ++ [move];
                feedback := ("Clicked square " ++ move)%string |}
    | None => None
    end.

(** The chess board: [row], [col] and [isLight] of the cell [index]. *)
Definition chessRow (index : Z) : Z := index / 8.
Definition chessCol (index : Z) : Z := Z.rem index 8.
Definition isLight (row col : Z) : bool := Z.rem (row + col) 2 =? 0.

(** [Array.from({ length: n }).map((_, index) => ...)]: the indices. *)
Definition cellIndices (n : nat) : list Z := map Z.of_nat (seq 0 n).

(** The sudoku grid: the values computed for the cell [index]. *)
Definition sudokuRow (index : Z) : Z := index / 9.
Definition sudokuCol (index : Z) : Z := Z.rem index 9.
Definition boxOf (rowOrCol : Z) : Z := rowOrCol / 3.
Definition isAlternateBox (row col : Z) : bool :=
  Z.rem (boxOf row + boxOf col) 2 =? 1.
(** [(col % 3 === 2 && col < 8)], and the same test on [row]. *)
Definition thickBorderAfter (rowOrCol : Z) : bool :=
  (Z.rem rowOrCol 3 =? 2) && (rowOrCol <? 8).

(** One event on the board: the two buttons, a click on one of the 64
    squares, an input into one of the 81 cells (the type of the board
    decides which of the last two can occur). *)
Inductive boardStep : BoardState -> BoardState -> Prop :=
| board_start st : boardStep st (handleStart st)
| board_reset st : boardStep st (handleReset st)
| board_click st index st' :
    In index (cellIndices 64) ->
    handleSquareClick st (chessRow index) (chessCol index) = Some st' ->
    boardStep st st'
| board_input st index value :
    In index (cellIndices 81) ->
    boardStep st
      (afterSudokuInput st (sudokuRow index) (sudokuCol index) value).

Inductive boardReachable : BoardState -> Prop :=
| board_init : boardReachable initialBoard
| board_next st st' :
    boardReachable st -> boardStep st st' -> boardReachable st'.

(** The name of a square of the board: a file letter from a to h, then a
    rank digit from 1 to 8. *)
Definition isSquareName (s : string) : bool :=
  match s with
  | String f (String r EmptyString) => inRange "a" "h" f && inRange "1" "8" r
  | _ => false
  end.

End Board.

(** * What the statistics page prints *)

Module StatsView.

(** The first [n] characters of [filler] repeated over and over. *)
Fixpoint fillWith (n : nat) (filler rest : string) : string :=
  match n with
  | O => ""
  | S n' =>
      match rest with
      | String c rest' => String c (fillWith n' filler rest')
      | EmptyString =>
          match filler with
          | String c rest' => String c (fillWith n' filler rest')
          | EmptyString => ""
          end
      end
  end.

(** [s.padStart(targetLength, padString)] *)
Definition padStart (s : string) (targetLength : nat) (padString : string)
  : string :=
  (fillWith (targetLength - String.length s) padString padString ++ s)%string.

(** [formatTime(seconds)] *)
Definition formatTime (seconds : Z) : string :=
  let h := seconds / 3600 in
  let m := Z.rem seconds 3600 / 60 in
  let s := Z.rem seconds 60 in
  String.concat ":" (map (fun v => padStart (numToString v) 2 "0") [h; m; s]).

(** [Math.round(a / b)] for integers [a] and [b > 0]: the integer nearest
    to the quotient, a half going up, that is the floor of [a / b + 1 / 2]. *)
Definition roundDiv (a b : Z) : Z := (2 * a + b) / (2 * b).

(** The tooltip formatter of the session chart:
    [`${Math.round(v / 60)}m ${v % 60}s`], for an integer number of seconds
    below 2^32 in absolute value.  There the numbers of the code hold [v],
    the quotient rounds to the same integer as the exact one and both
    numbers print with all their digits; [None] is a duration beyond this
    range, which the model leaves out. *)
Definition sessionLabel (v : Z) : option string :=
  if Z.abs v <? 4294967296 then
    Some (numToString (roundDiv v 60) ++ "m " ++ numToString (Z.rem v 60)
          ++ "s")%string
  else None.

(** One field of [formatTime]: [v.toString().padStart(2, '0')]. *)
Definition timeField (v : Z) : string := padStart (numToString v) 2 "0".

(** The number that a string of decimal digits writes. *)
Definition digitsValue (s : string) : Z :=
  fold_left (fun acc c => 10 * acc + (Z.of_N (N_of_ascii c) - 48))
    (list_ascii_of_string s) 0.

End StatsView.

(** * Properties of the cube model *)

Module CubeFacts.
Import Cube.

(** ** The callback always returns a cubie *)

Lemma inLayer_axis axis value p :
  inLayer axis value p = true -> axis = 0 \/ axis = 1 \/ axis = 2.
Proof.
  destruct p as [[x y] z]. unfold inLayer.
  destruct (Z.eqb_spec axis 0), (Z.eqb_spec axis 1), (Z.eqb_spec axis 2);
    simpl; auto; discriminate.
Qed.

Lemma rotateCubie_total axis value cw c :
  rotateCubie axis value cw c = Some (turnCubie axis value cw c).
Proof.
  unfold turnCubie, rotateCubie.
  destruct (inLayer axis value (pos c)) eqn:Hin; [|reflexivity].
  apply inLayer_axis in Hin as [-> | [-> | ->]]; reflexivity.
Qed.

Lemma mapM_total {A B : Type} (f : A -> option B) (g : A -> B) l :
  (forall x, f x = Some (g x)) -> mapM f l = Some (map g l).
Proof.
  intros Hf. induction l as [|x l IH]; [reflexivity|].
  cbn. rewrite Hf. cbn. rewrite IH. reflexivity.
Qed.

Lemma rotateLayer_total cubies axis value cw :
  rotateLayer cubies axis value cw
  = Some (map (turnCubie axis value cw) cubies).
Proof. apply mapM_total, rotateCubie_total. Qed.

(** ** What a turn does to one cubie *)

Lemma turnCubie_outside axis value cw c :
  inLayer axis value (pos c) = false -> turnCubie axis value cw c = c.
Proof.
  intros Hin. unfold turnCubie, rotateCubie. rewrite Hin. reflexivity.
Qed.

Lemma turnCubie_inside axis value cw c :
  inLayer axis value (pos c) = true ->
  exists name, axisName axis = Some name /\
    turnCubie axis value cw c
    = {| pos := rotatePos axis cw (pos c);
         orientation := rotateOrientation name (orientation c) cw;
         stickers := stickers c; key := key c |}.
Proof.
  intros Hin. unfold turnCubie, rotateCubie. rewrite Hin.
  apply inLayer_axis in Hin as [-> | [-> | ->]]; eexists; split; reflexivity.
Qed.

Lemma turnCubie_stickers axis value cw c :
  stickers (turnCubie axis value cw c) = stickers c.
Proof.
  destruct (inLayer axis value (pos c)) eqn:Hin.
  - destruct (turnCubie_inside _ _ cw _ Hin) as (n & _ & ->). reflexivity.
  - rewrite turnCubie_outside; auto.
Qed.

Lemma turnCubie_key axis value cw c :
  key (turnCubie axis value cw c) = key c.
Proof.
  destruct (inLayer axis value (pos c)) eqn:Hin.
  - destruct (turnCubie_inside _ _ cw _ Hin) as (n & _ & ->). reflexivity.
  - rewrite turnCubie_outside; auto.
Qed.

Lemma turnCubie_pos axis value cw c :
  pos (turnCubie axis value cw c) = turnPos axis value cw (pos c).
Proof.
  unfold turnPos. destruct (inLayer axis value (pos c)) eqn:Hin.
  - destruct (turnCubie_inside _ _ cw _ Hin) as (n & _ & ->). reflexivity.
  - rewrite turnCubie_outside; auto.
Qed.

(** Case analysis on the guard, with the axis made concrete. *)
Ltac layer_cases axis value p H :=
  destruct p as [[?x ?y] ?z];
  destruct (inLayer axis value (_, _, _)) eqn:H;
  [ let Hax := fresh in
    pose proof (inLayer_axis _ _ _ H) as Hax;
    destruct Hax as [-> | [-> | ->]];
    unfold inLayer in H; simpl in H;
    rewrite ?orb_false_r in H; apply Z.eqb_eq in H; subst
  | ].

(** A turned cubie is still in the layer, an untouched one still outside. *)
Lemma inLayer_turnPos axis value cw p :
  inLayer axis value (turnPos axis value cw p) = inLayer axis value p.
Proof.
  unfold turnPos. layer_cases axis value p Hin; [..|exact Hin];
    unfold inLayer, rotatePos; simpl; rewrite Z.eqb_refl; reflexivity.
Qed.

(** The opposite turn undoes a turn of positions. *)
Lemma turnPos_inverse axis value cw p :
  turnPos axis value (negb cw) (turnPos axis value cw p) = p.
Proof.
  unfold turnPos at 1. rewrite inLayer_turnPos.
  unfold turnPos. layer_cases axis value p Hin; [..|reflexivity];
    destruct cw; unfold rotatePos; simpl; rewrite ?Z.opp_involutive;
    reflexivity.
Qed.

Lemma turnPos_injective axis value cw p q :
  turnPos axis value cw p = turnPos axis value cw q -> p = q.
Proof.
  intros H. rewrite <- (turnPos_inverse axis value cw p),
    <- (turnPos_inverse axis value cw q). congruence.
Qed.

Lemma turnPos_inside axis value cw p :
  inLayer axis value p = true -> turnPos axis value cw p = rotatePos axis cw p.
Proof. intros H. unfold turnPos. rewrite H. reflexivity. Qed.

Lemma turnPos_outside axis value cw p :
  inLayer axis value p = false -> turnPos axis value cw p = p.
Proof. intros H. unfold turnPos. rewrite H. reflexivity. Qed.

Lemma rotatePos_four axis cw p :
  axis = 0 \/ axis = 1 \/ axis = 2 ->
  rotatePos axis cw (rotatePos axis cw (rotatePos axis cw
    (rotatePos axis cw p))) = p.
Proof.
  destruct p as [[x y] z].
  intros [-> | [-> | ->]]; destruct cw; unfold rotatePos; simpl;
    rewrite ?Z.opp_involutive; reflexivity.
Qed.

(** Four equal turns bring a position back. *)
Lemma turnPos_four axis value cw p :
  turnPos axis value cw (turnPos axis value cw
    (turnPos axis value cw (turnPos axis value cw p))) = p.
Proof.
  destruct (inLayer axis value p) eqn:Hin.
  - pose proof (inLayer_turnPos axis value cw p) as H1.
    rewrite Hin in H1.
    pose proof (inLayer_turnPos axis value cw (turnPos axis value cw p))
      as H2.
    rewrite H1 in H2.
    pose proof (inLayer_turnPos axis value cw
                  (turnPos axis value cw (turnPos axis value cw p))) as H3.
    rewrite H2 in H3.
    rewrite (turnPos_inside _ _ _ _ H3).
    rewrite (turnPos_inside _ _ _ _ H2).
    rewrite (turnPos_inside _ _ _ _ H1).
    rewrite (turnPos_inside _ _ _ _ Hin).
    apply rotatePos_four. eapply inLayer_axis, Hin.
  - rewrite !(turnPos_outside _ _ _ p Hin). reflexivity.
Qed.

(** Four equal relabellings bring an orientation back, on every axis. *)
Lemma rotateOrientation_four name cw ori :
  rotateOrientation name (rotateOrientation name
    (rotateOrientation name (rotateOrientation name ori cw) cw) cw) cw = ori.
Proof. destruct name, cw, ori; reflexivity. Qed.

Lemma turnCubie_four axis value cw c :
  turnCubie axis value cw (turnCubie axis value cw
    (turnCubie axis value cw (turnCubie axis value cw c))) = c.
Proof.
  destruct (inLayer axis value (pos c)) eqn:Hin.
  - assert (Hstay : forall c', inLayer axis value (pos c') = true ->
      inLayer axis value (pos (turnCubie axis value cw c')) = true).
    { intros c' H'. rewrite turnCubie_pos, inLayer_turnPos. exact H'. }
    pose proof (turnPos_four axis value cw (pos c)) as Hpos.
    rewrite <- !turnCubie_pos in Hpos.
    destruct (turnCubie_inside _ _ cw _ Hin) as (n & Hn & E1).
    pose proof (Hstay _ Hin) as Hin1.
    destruct (turnCubie_inside _ _ cw _ Hin1) as (n2 & Hn2 & E2).
    pose proof (Hstay _ Hin1) as Hin2.
    destruct (turnCubie_inside _ _ cw _ Hin2) as (n3 & Hn3 & E3).
    pose proof (Hstay _ Hin2) as Hin3.
    destruct (turnCubie_inside _ _ cw _ Hin3) as (n4 & Hn4 & E4).
    assert (n2 = n) by congruence. assert (n3 = n) by congruence.
    assert (n4 = n) by congruence. subst n2 n3 n4.
    rewrite E4. rewrite E4 in Hpos. simpl in Hpos.
    rewrite E3, E2, E1. simpl.
    rewrite E3, E2, E1 in Hpos. simpl in Hpos.
    rewrite Hpos, rotateOrientation_four. destruct c; reflexivity.
  - rewrite !(turnCubie_outside _ _ _ c Hin). reflexivity.
Qed.

(** ** Whole-array consequences *)

Lemma map_turnCubie_pos axis value cw cubies :
  map pos (map (turnCubie axis value cw) cubies)
  = map (turnPos axis value cw) (map pos cubies).
Proof.
  rewrite !map_map. apply map_ext. intros c. apply turnCubie_pos.
Qed.

Lemma map_turnCubie_stickers axis value cw cubies :
  map stickers (map (turnCubie axis value cw) cubies) = map stickers cubies.
Proof.
  rewrite map_map. apply map_ext. intros c. apply turnCubie_stickers.
Qed.

Lemma map_turnCubie_key axis value cw cubies :
  map key (map (turnCubie axis value cw) cubies) = map key cubies.
Proof.
  rewrite map_map. apply map_ext. intros c. apply turnCubie_key.
Qed.

(** ** The turn of a layer permutes the 27 positions *)

Lemma In_cubePositions x y z :
  In (x, y, z) cubePositions
  <-> (-1 <= x <= 1) /\ (-1 <= y <= 1) /\ (-1 <= z <= 1).
Proof.
  split.
  - intros H. simpl in H.
    repeat (destruct H as [H | H]; [inversion H; lia|]). destruct H.
  - intros (Hx & Hy & Hz).
    assert (x = -1 \/ x = 0 \/ x = 1) as [-> | [-> | ->]] by lia;
    assert (y = -1 \/ y = 0 \/ y = 1) as [-> | [-> | ->]] by lia;
    assert (z = -1 \/ z = 0 \/ z = 1) as [-> | [-> | ->]] by lia;
    simpl; tauto.
Qed.

Lemma turnPos_in_cube axis value cw p :
  In p cubePositions -> In (turnPos axis value cw p) cubePositions.
Proof.
  destruct p as [[x y] z]. rewrite In_cubePositions. intros H.
  unfold turnPos. destruct (inLayer axis value (x, y, z)).
  - unfold rotatePos.
    destruct (axis =? 0), (axis =? 1), (axis =? 2), cw;
      rewrite In_cubePositions; lia.
  - rewrite In_cubePositions. exact H.
Qed.

Lemma NoDup_cubePositions : List.NoDup cubePositions.
Proof.
  apply NoDup_ListNoDup.
  apply (bool_decide_unpack (NoDup (cubePositions : list (Z * Z * Z)))).
  vm_compute. reflexivity.
Qed.

Lemma turnPos_permutes_cube axis value cw :
  Permutation (map (turnPos axis value cw) cubePositions) cubePositions.
Proof.
  apply NoDup_Permutation_bis.
  - apply Finite.Injective_map_NoDup; [|apply NoDup_cubePositions].
    intros p q. apply turnPos_injective.
  - rewrite length_map. reflexivity.
  - intros q Hq. apply in_map_iff in Hq as (p & <- & Hp).
    apply turnPos_in_cube, Hp.
Qed.

Lemma turn_occupiesCube cubies axis value cw :
  occupiesCube cubies ->
  occupiesCube (map (turnCubie axis value cw) cubies).
Proof.
  unfold occupiesCube. intros H. rewrite map_turnCubie_pos.
  transitivity (map (turnPos axis value cw) cubePositions).
  - apply Permutation_map, H.
  - apply turnPos_permutes_cube.
Qed.

(** ** Properties kept by every action of the component *)

Section Invariant.

Variable P : list Cubie -> Prop.
Hypothesis P_turn :
  forall cubies axis value cw,
    P cubies -> P (map (turnCubie axis value cw) cubies).

Lemma setCubiesIf_inv cond axis value cw c :
  (exists cubies, c = Some cubies /\ P cubies) ->
  exists cubies', setCubiesIf cond axis value cw c = Some cubies'
                  /\ P cubies'.
Proof.
  intros (cubies & -> & HP). unfold setCubiesIf. destruct cond.
  - rewrite rotateLayer_total. eauto.
  - eauto.
Qed.

Lemma rotate_inv layer cw cubies :
  P cubies ->
  exists cubies', rotate layer cw cubies = Some cubies' /\ P cubies'.
Proof.
  intros HP. unfold rotate. do 6 apply setCubiesIf_inv. eauto.
Qed.

Lemma scrambleMove_inv move cw cubies :
  P cubies ->
  exists cubies', scrambleMove move cw cubies = Some cubies' /\ P cubies'.
Proof.
  intros HP. unfold scrambleMove.
  destruct (scrambleArgs move) as [axis [value|]].
  - rewrite rotateLayer_total. eauto.
  - eauto.
Qed.

Lemma scrambleLoop_inv rand n : forall i cubies,
  P cubies ->
  exists cubies', scrambleLoop rand i n cubies = Some cubies'
                  /\ P cubies'.
Proof.
  induction n as [|n IH]; intros i cubies HP; simpl.
  - eauto.
  - destruct (scrambleMove_inv (drawMove (rand i)) (coin (rand i))
                cubies HP) as (next & -> & Hnext).
    apply IH, Hnext.
Qed.

Lemma step_inv c c' : P createSolvedCubeState -> P c -> step c c' -> P c'.
Proof.
  intros H0 HP Hstep. destruct Hstep as [layer cw c c' H|rand c c' H|c].
  - destruct (rotate_inv layer cw c HP) as (c2 & E & H2). congruence.
  - destruct (scrambleLoop_inv rand 20 0%nat c HP) as (c2 & E & H2).
    unfold scramble in H. congruence.
  - exact H0.
Qed.

Lemma reachable_inv s : P createSolvedCubeState -> reachable s -> P s.
Proof.
  intros H0 Hr. induction Hr as [|c c' _ IH Hstep]; [exact H0|].
  eapply step_inv; eauto.
Qed.

End Invariant.

(** ** Orientations stay bijections *)

Lemma rotateOrientation_values name cw ori :
  Permutation (values (rotateOrientation name ori cw)) (values ori).
Proof.
  destruct ori, name, cw; unfold values; simpl; solve_Permutation.
Qed.

Lemma rotateOrientation_bijective name cw ori :
  bijective ori -> bijective (rotateOrientation name ori cw).
Proof.
  unfold bijective. intros H. rewrite rotateOrientation_values. exact H.
Qed.

Lemma turnCubie_bijective axis value cw c :
  bijective (orientation c) ->
  bijective (orientation (turnCubie axis value cw c)).
Proof.
  intros H. destruct (inLayer axis value (pos c)) eqn:Hin.
  - destruct (turnCubie_inside _ _ cw _ Hin) as (n & _ & ->). simpl.
    apply rotateOrientation_bijective, H.
  - rewrite turnCubie_outside; auto.
Qed.

Lemma solved_bijective :
  List.Forall (fun c => bijective (orientation c)) createSolvedCubeState.
Proof.
  apply List.Forall_forall. intros c Hc.
  assert (orientation c = identityOrientation) as ->.
  { vm_compute in Hc. repeat (destruct Hc as [<- | Hc]; [reflexivity|]).
    destruct Hc. }
  apply Permutation_refl.
Qed.

(** ** The relabelling of orientations against the rotation of positions *)

(** Every cubie of the turned layer gets the rotated position. *)
Lemma rotateLayer_turns_positions cubies axis value cw :
  exists cubies',
    rotateLayer cubies axis value cw = Some cubies'
    /\ forall i c, nth_error cubies i = Some c ->
         inLayer axis value (pos c) = true ->
         exists c', nth_error cubies' i = Some c'
                    /\ pos c' = rotatePos axis cw (pos c).
Proof.
  eexists. split; [apply rotateLayer_total|].
  intros i c Hi Hin. exists (turnCubie axis value cw c). split.
  - apply map_nth_error, Hi.
  - rewrite turnCubie_pos. apply turnPos_inside, Hin.
Qed.

(** On the x axis the relabelling follows the rotation of positions. *)
Lemma rotateOrientation_x_induced ori cw :
  relabelledAlong 0 cw ori (rotateOrientation ax_x ori cw).
Proof.
  intros d d' H. destruct cw, d; vm_compute in H; inversion H; reflexivity.
Qed.

(** On the y axis the relabelling is two swaps ([F] with [L], [R] with [B],
    or [F] with [R], [B] with [L]): done twice it is the identity, so it is
    no cycle of length four. *)
Lemma rotateOrientation_y_involutive ori cw :
  rotateOrientation ax_y (rotateOrientation ax_y ori cw) cw = ori.
Proof. destruct ori, cw; reflexivity. Qed.

(** On the z axis the relabelling is the cycle of the opposite turn. *)
Lemma rotateOrientation_z_opposite ori cw :
  relabelledAlong 2 (negb cw) ori (rotateOrientation ax_z ori cw).
Proof.
  intros d d' H. destruct cw, d; vm_compute in H; inversion H; reflexivity.
Qed.

(** C1 (evaluation at the failing input).  Turning the up layer ([axis] 1,
    slice 1, clockwise) of the solved cube moves the corner cubie at
    (1, 1, 1) by the rotation of the y axis, which carries direction [F] to
    direction [R]; the new orientation nevertheless has at [R] what the old
    one had at [B], not what it had at [F]: the relabelling is not the one
    induced by the rotation of positions. *)
Theorem rotateLayer_y_turn_not_induced :
  exists cubies' c c',
    rotateLayer createSolvedCubeState 1 1 true = Some cubies'
    /\ nth_error createSolvedCubeState 26 = Some c
    /\ nth_error cubies' 26 = Some c'
    /\ inLayer 1 1 (pos c) = true
    /\ pos c' = rotatePos 1 true (pos c)
    /\ turnFace 1 true F = Some R
    /\ get (orientation c) F = "F"
    /\ get (orientation c) B = "B"
    /\ get (orientation c') R = "B"
    /\ ~ relabelledAlong 1 true (orientation c) (orientation c').
Proof.
  eexists. eexists. eexists.
  split; [vm_compute; reflexivity|].
  split; [vm_compute; reflexivity|].
  split; [vm_compute; reflexivity|].
  repeat (split; [reflexivity|]).
  intros H. specialize (H F R eq_refl). vm_compute in H. discriminate.
Qed.

(** ** Four turns *)

(** C2.  Four successive calls of [rotateLayer] with the same axis, slice
    and direction succeed and give back the array they started from: every
    cubie has its original position and orientation again. *)
Theorem rotateLayer_four_times cubies axis value cw :
  rotateLayerTimes 4 cubies axis value cw = Some cubies.
Proof.
  simpl. rewrite !rotateLayer_total. f_equal.
  rewrite !map_map. rewrite <- (map_id cubies) at 2.
  apply map_ext. intros c. apply turnCubie_four.
Qed.

(** ** The 27 positions *)

(** C3.  A call of [rotateLayer] on cubies that occupy the 27 positions of
    the cube, each once, returns cubies that do so again; and the cubies do
    so in every state reachable from the solved one by rotate, scramble and
    reset. *)
Theorem rotateLayer_preserves_positions :
  (forall cubies axis value cw,
     occupiesCube cubies ->
     exists cubies', rotateLayer cubies axis value cw = Some cubies'
                     /\ occupiesCube cubies')
  /\ (forall s, reachable s -> occupiesCube s).
Proof.
  split.
  - intros cubies axis value cw H. rewrite rotateLayer_total.
    eexists. split; [reflexivity|]. apply turn_occupiesCube, H.
  - intros s Hs. apply reachable_inv; [|apply Permutation_refl|exact Hs].
    intros. apply turn_occupiesCube. assumption.
Qed.

Lemma rotateLayer_preserves_positions_witness :
  occupiesCube createSolvedCubeState
  /\ (exists cubies',
        rotateLayer createSolvedCubeState 1 1 true = Some cubies'
        /\ occupiesCube cubies')
  /\ reachable createSolvedCubeState
  /\ occupiesCube createSolvedCubeState.
Proof.
  assert (H0 : occupiesCube createSolvedCubeState)
    by exact (Permutation_refl cubePositions).
  split; [exact H0|]. split.
  - apply (proj1 rotateLayer_preserves_positions), H0.
  - split; [constructor|].
    apply (proj2 rotateLayer_preserves_positions). constructor.
Defined.

(** ** Cubies outside the layer *)

Lemma coord_inLayer axis value p :
  coord axis p <> Some value -> inLayer axis value p = false.
Proof.
  destruct p as [[x y] z]. unfold coord, inLayer. intros H.
  destruct (Z.eqb_spec axis 0) as [->|]; simpl.
  { destruct (Z.eqb_spec x value) as [->|]; [|reflexivity].
    exfalso. apply H. reflexivity. }
  destruct (Z.eqb_spec axis 1) as [->|]; simpl.
  { destruct (Z.eqb_spec y value) as [->|]; [|reflexivity].
    exfalso. apply H. reflexivity. }
  destruct (Z.eqb_spec axis 2) as [->|]; simpl.
  { destruct (Z.eqb_spec z value) as [->|]; [|reflexivity].
    exfalso. apply H. reflexivity. }
  reflexivity.
Qed.

(** C4.  A cubie whose coordinate along the axis is not the slice value is
    returned by [rotateLayer] at the same index with the same position,
    orientation, stickers and key. *)
Theorem rotateLayer_outside_unchanged cubies axis value cw i c :
  nth_error cubies i = Some c ->
  coord axis (pos c) <> Some value ->
  exists cubies',
    rotateLayer cubies axis value cw = Some cubies'
    /\ nth_error cubies' i = Some c.
Proof.
  intros Hi Hout. rewrite rotateLayer_total. eexists. split; [reflexivity|].
  rewrite <- (turnCubie_outside axis value cw c (coord_inLayer _ _ _ Hout)).
  apply map_nth_error, Hi.
Qed.

Lemma rotateLayer_outside_unchanged_witness :
  let c := {| pos := (-1, -1, -1); orientation := identityOrientation;
              stickers := getInitialCubieColors (-1) (-1) (-1);
              key := "-1,-1,-1" |} in
  nth_error createSolvedCubeState 0 = Some c
  /\ coord 1 (pos c) <> Some 1
  /\ exists cubies',
       rotateLayer createSolvedCubeState 1 1 true = Some cubies'
       /\ nth_error cubies' 0 = Some c.
Proof.
  intros c.
  assert (H1 : nth_error createSolvedCubeState 0 = Some c) by reflexivity.
  assert (H2 : coord 1 (pos c) <> Some 1) by (simpl; discriminate).
  split; [exact H1|]. split; [exact H2|].
  exact (rotateLayer_outside_unchanged createSolvedCubeState 1 1 true 0 c
           H1 H2).
Defined.

(** ** Reset *)

(** C5.  Whatever the current cubies are, [reset] yields the result of
    [createSolvedCubeState]: 27 cubies on the 27 positions, each with the
    identity orientation and the stickers of its position. *)
Theorem reset_yields_solved cubies :
  reset cubies = createSolvedCubeState
  /\ length (reset cubies) = 27%nat
  /\ map pos (reset cubies) = cubePositions
  /\ List.Forall (fun c =>
         orientation c = identityOrientation
         /\ stickers c
            = (let '(x, y, z) := pos c in getInitialCubieColors x y z))
       (reset cubies).
Proof.
  unfold reset. repeat split.
  apply List.Forall_forall. intros c Hc. vm_compute in Hc.
  repeat (destruct Hc as [<- | Hc]; [split; reflexivity|]). destruct Hc.
Qed.

(** ** Bijective orientations *)

(** C6.  In every state reachable from the solved one the orientation of
    every cubie is a bijection onto the six face labels, and every
    [rotateOrientation] map sends a bijective orientation to a bijective
    one. *)
Theorem orientation_always_bijective :
  (forall s, reachable s ->
     List.Forall (fun c => bijective (orientation c)) s)
  /\ (forall name cw ori,
        bijective ori -> bijective (rotateOrientation name ori cw)).
Proof.
  split.
  - intros s Hs.
    apply (reachable_inv
             (fun s => List.Forall (fun c => bijective (orientation c)) s));
      [|apply solved_bijective|exact Hs].
    intros cubies axis value cw H. apply List.Forall_map.
    eapply List.Forall_impl; [|exact H].
    intros c Hc. apply turnCubie_bijective, Hc.
  - intros. apply rotateOrientation_bijective. assumption.
Qed.

Lemma orientation_always_bijective_witness :
  reachable (reset createSolvedCubeState)
  /\ List.Forall (fun c => bijective (orientation c))
       (reset createSolvedCubeState)
  /\ bijective identityOrientation
  /\ bijective (rotateOrientation ax_y identityOrientation true).
Proof.
  assert (Hr : reachable (reset createSolvedCubeState))
    by (eapply reachable_step; [apply reachable_init|apply step_reset]).
  assert (Hb : bijective identityOrientation)
    by exact (Permutation_refl (map label faces)).
  split; [exact Hr|]. split.
  - exact (proj1 orientation_always_bijective _ Hr).
  - split; [exact Hb|].
    exact (proj2 orientation_always_bijective ax_y true _ Hb).
Defined.

(** ** Stickers *)

(** C7.  The stickers of a cubie are those [getInitialCubieColors] gives
    for its position in [createSolvedCubeState], and [rotateLayer],
    [rotate] and [scramble] all return cubies with the stickers (and keys)
    of their input, cubie by cubie. *)
Theorem stickers_never_change :
  List.Forall (fun c =>
      stickers c = (let '(x, y, z) := pos c in getInitialCubieColors x y z))
    createSolvedCubeState
  /\ (forall cubies axis value cw,
        exists cubies',
          rotateLayer cubies axis value cw = Some cubies'
          /\ map stickers cubies' = map stickers cubies
          /\ map key cubies' = map key cubies)
  /\ (forall layer cw cubies,
        exists cubies',
          rotate layer cw cubies = Some cubies'
          /\ map stickers cubies' = map stickers cubies)
  /\ (forall rand cubies,
        exists cubies',
          scramble rand cubies = Some cubies'
          /\ map stickers cubies' = map stickers cubies).
Proof.
  split; [|split; [|split]].
  - apply List.Forall_forall. intros c Hc. vm_compute in Hc.
    repeat (destruct Hc as [<- | Hc]; [reflexivity|]). destruct Hc.
  - intros. rewrite rotateLayer_total. eexists. split; [reflexivity|].
    split; [apply map_turnCubie_stickers|apply map_turnCubie_key].
  - intros layer cw cubies.
    apply (rotate_inv (fun c => map stickers c = map stickers cubies));
      [|reflexivity].
    intros c a v d H. rewrite map_turnCubie_stickers. exact H.
  - intros rand cubies.
    apply (scrambleLoop_inv (fun c => map stickers c = map stickers cubies));
      [|reflexivity].
    intros c a v d H. rewrite map_turnCubie_stickers. exact H.
Qed.

(** ** The layers that a scramble turns *)

Lemma drawMove_in_moves d : In (drawMove d) moves.
Proof.
  unfold drawMove, randomIndex.
  assert (H : (pick d mod length moves < 6)%nat)
    by (apply Nat.mod_upper_bound; discriminate).
  destruct (pick d mod length moves)%nat as [|[|[|[|[|[|n]]]]]];
    [simpl; tauto ..|lia].
Qed.

Lemma fold_scrambleStep_None turns :
  fold_left scrambleStep turns None = None.
Proof. induction turns as [|t turns IH]; [reflexivity|exact IH]. Qed.

(** The loop makes exactly the calls listed by [scrambleLayers], with the
    directions drawn. *)
Lemma scrambleLoop_layers rand n : forall i cubies,
  scrambleLoop rand i n cubies
  = fold_left scrambleStep
      (map (fun j => (scrambleArgs (drawMove (rand j)), coin (rand j)))
         (seq i n))
      (Some cubies).
Proof.
  induction n as [|n IH]; intros i cubies; [reflexivity|].
  cbn [scrambleLoop seq map fold_left]. unfold scrambleMove.
  destruct (scrambleArgs (drawMove (rand i))) as [axis [value|]].
  - change (scrambleStep (Some cubies) (axis, Some value, coin (rand i)))
      with (rotateLayer cubies axis value (coin (rand i))).
    destruct (rotateLayer cubies axis value (coin (rand i))).
    + apply IH.
    + symmetry. apply fold_scrambleStep_None.
  - apply IH.
Qed.

(** The loop applies [scrambleMove] to the drawn moves, one after the
    other. *)
Lemma scrambleLoop_moves rand n : forall i cubies,
  scrambleLoop rand i n cubies
  = fold_left
      (fun c j =>
         match c with
         | Some temp => scrambleMove (drawMove (rand j)) (coin (rand j)) temp
         | None => None
         end)
      (seq i n) (Some cubies).
Proof.
  induction n as [|n IH]; intros i cubies; [reflexivity|].
  cbn [scrambleLoop seq fold_left].
  destruct (scrambleMove (drawMove (rand i)) (coin (rand i)) cubies).
  - apply IH.
  - clear IH. generalize (seq (S i) n). intros l.
    induction l as [|j l IHl]; [reflexivity|exact IHl].
Qed.

Lemma combine_layers_coins (rand : nat -> Draw) (l : list nat) :
  map (fun j => (scrambleArgs (drawMove (rand j)), coin (rand j))) l
  = combine (map (fun i => scrambleArgs (drawMove (rand i))) l)
      (map (fun i => coin (rand i)) l).
Proof.
  induction l as [|j l IH]; [reflexivity|]. simpl. rewrite IH. reflexivity.
Qed.

(** C9.  The rotation that [scramble] applies for the letters U, B, L, R
    is [rotateLayer] on (axis, slice) (0, 1), (0, -1), (1, -1), (2, 1),
    which is what the rotate handler does for R, L, D, F; for D and F it is
    what the handler does for the same letter.  A scramble is twenty such
    rotations in a row, one for each drawn letter, with the drawn
    directions: it makes exactly the calls of [rotateLayer] on the layers
    listed by [scrambleLayers].  So every layer turned by a scramble is
    among these four, and the layers y = 1 and z = -1 are never turned. *)
Theorem scramble_layer_mapping :
  (forall cubies cw,
     scrambleMove "U" cw cubies = rotateLayer cubies 0 1 cw
     /\ scrambleMove "U" cw cubies = rotate "R" cw cubies
     /\ scrambleMove "B" cw cubies = rotateLayer cubies 0 (-1) cw
     /\ scrambleMove "B" cw cubies = rotate "L" cw cubies
     /\ scrambleMove "L" cw cubies = rotateLayer cubies 1 (-1) cw
     /\ scrambleMove "L" cw cubies = rotate "D" cw cubies
     /\ scrambleMove "R" cw cubies = rotateLayer cubies 2 1 cw
     /\ scrambleMove "R" cw cubies = rotate "F" cw cubies
     /\ scrambleMove "D" cw cubies = rotate "D" cw cubies
     /\ scrambleMove "F" cw cubies = rotate "F" cw cubies)
  /\ (forall rand,
        length (scrambleLayers rand) = 20%nat
        /\ List.Forall
             (fun l => In l [(0, Some 1); (0, Some (-1)); (1, Some (-1));
                             (2, Some 1)])
             (scrambleLayers rand)
        /\ ~ In (1, Some 1) (scrambleLayers rand)
        /\ ~ In (2, Some (-1)) (scrambleLayers rand))
  /\ (forall rand cubies,
        (forall i, In (drawMove (rand i)) moves)
        /\ scramble rand cubies
           = fold_left
               (fun c i =>
                  match c with
                  | Some temp =>
                      scrambleMove (drawMove (rand i)) (coin (rand i)) temp
                  | None => None
                  end)
               (seq 0 20) (Some cubies)
        /\ scramble rand cubies
           = fold_left
               (fun c turn =>
                  match c, turn with
                  | Some temp, (axis, Some value, cw) =>
                      rotateLayer temp axis value cw
                  | Some temp, (_, None, _) => Some temp
                  | None, _ => None
                  end)
               (combine (scrambleLayers rand)
                  (map (fun i => coin (rand i)) (seq 0 20)))
               (Some cubies)).
Proof.
  split; [|split].
  - intros cubies cw. repeat split; reflexivity.
  - intros rand.
    assert (Hall : forall l, In l (scrambleLayers rand) ->
              In l [(0, Some 1); (0, Some (-1)); (1, Some (-1));
                    (2, Some 1)]).
    { intros l Hl. unfold scrambleLayers in Hl.
      apply in_map_iff in Hl as (i & <- & _).
      pose proof (drawMove_in_moves (rand i)) as Hm.
      simpl in Hm.
      repeat (destruct Hm as [<- | Hm]; [vm_compute; tauto|]).
      destruct Hm. }
    split; [unfold scrambleLayers; rewrite length_map; apply length_seq|].
    split; [apply List.Forall_forall, Hall|].
    split; intros H; apply Hall in H; simpl in H;
      repeat (destruct H as [H | H]; [discriminate H|]); exact H.
  - intros rand cubies. split; [intros i; apply drawMove_in_moves|].
    split.
    + apply scrambleLoop_moves.
    + unfold scramble, scrambleLayers.
      rewrite scrambleLoop_layers, combine_layers_coins. reflexivity.
Qed.

End CubeFacts.

(** * Properties of the sudoku input handler *)

Module SudokuFacts.
Import Sudoku.

(** Past the start of the input the anchored pattern matches nowhere. *)
Lemma testFrom_cellPattern_later s : testFrom cellPattern false s = false.
Proof. induction s as [|c s IH]; [reflexivity|exact IH]. Qed.

(** The pattern accepts the empty string and the digits 1 to 9, nothing
    else. *)
Lemma test_cellPattern value :
  test cellPattern value = (value =? "")%string || isDigit1to9 value.
Proof.
  destruct value as [|c [|c' s]].
  - reflexivity.
  - unfold test, isDigit1to9. cbn -[inRange].
    destruct (inRange "1" "9" c); reflexivity.
  - unfold test. cbn -[inRange].
    destruct (inRange "1" "9" c); cbn; apply testFrom_cellPattern_later.
Qed.

(** C8 (as stated, at the empty input on an active board): the empty string
    is not a single digit, yet the handler sets the feedback. *)
Lemma handleSudokuInput_acts_on_empty_input :
  ~ ((is_Some (handleSudokuInput activeBoard 0 0 "")
      <-> test cellPattern "" = true)
     /\ (isSingleDigit "" = false ->
         handleSudokuInput activeBoard 0 0 "" = None)).
Proof. intros [_ H]. specialize (H eq_refl). discriminate H. Qed.

(** The handler does nothing on an inactive board, even for a digit. *)
Lemma handleSudokuInput_inactive st row col value :
  isActive st = false -> handleSudokuInput st row col value = None.
Proof. intros H. unfold handleSudokuInput. rewrite H. reflexivity. Qed.

(** C8 (amended).  The handler calls [setFeedback] exactly when the board
    is active and the input is empty or one digit from 1 to 9: with
    "Cell cleared" for the empty input and with the placement message for a
    digit.  In every other case it returns and the state is as before. *)
Theorem handleSudokuInput_acts_iff st row col value :
  handleSudokuInput st row col value
  = (if isActive st && ((value =? "")%string || isDigit1to9 value)
     then Some (if (value =? "")%string then "Cell cleared"
                else ("Placed " ++ value ++ " at row " ++ numToString (row + 1)
                      ++ ", column " ++ numToString (col + 1))%string)
     else None)
  /\ afterSudokuInput st row col value
     = (if isActive st && ((value =? "")%string || isDigit1to9 value)
        then {| isActive := isActive st; moves := moves st;
                feedback :=
                  if (value =? "")%string then "Cell cleared"
                  else ("Placed " ++ value ++ " at row "
                        ++ numToString (row + 1) ++ ", column "
                        ++ numToString (col + 1))%string |}
        else st).
Proof.
  assert (H : handleSudokuInput st row col value
    = (if isActive st && ((value =? "")%string || isDigit1to9 value)
       then Some (if (value =? "")%string then "Cell cleared"
                  else ("Placed " ++ value ++ " at row "
                        ++ numToString (row + 1)
                        ++ ", column " ++ numToString (col + 1))%string)
       else None)).
  { unfold handleSudokuInput. rewrite test_cellPattern.
    destruct (isActive st); [|reflexivity]. simpl.
    destruct ((value =? "")%string || isDigit1to9 value); [|reflexivity].
    simpl. destruct (value =? "")%string; reflexivity. }
  split; [exact H|].
  unfold afterSudokuInput. rewrite H.
  destruct (isActive st && ((value =? "")%string || isDigit1to9 value));
    reflexivity.
Qed.

End SudokuFacts.

(** * Properties of the statistics sort *)

Module StatisticsFacts.
Import Statistics.

(** ** The sort of the elements *)

Section SortElements.

Variable cmp : GameStat -> GameStat -> Z.

Lemma insertSorted_perm a l :
  Permutation (insertSorted cmp a l) (a :: l).
Proof.
  induction l as [|b l IH]; simpl.
  - apply Permutation_refl.
  - destruct (cmp a b <=? 0).
    + apply Permutation_refl.
    + eapply perm_trans; [apply perm_skip, IH|apply perm_swap].
Qed.

Lemma sortElements_perm l : Permutation (sortElements cmp l) l.
Proof.
  induction l as [|a l IH]; simpl.
  - apply perm_nil.
  - eapply perm_trans; [apply insertSorted_perm|apply perm_skip, IH].
Qed.

(** A comparator that never tells two elements apart leaves the order. *)
Lemma sortElements_ties l :
  (forall a b, cmp a b = 0) -> sortElements cmp l = l.
Proof.
  intros H0. induction l as [|a l IH]; simpl; [reflexivity|].
  rewrite IH. destruct l as [|b l]; simpl; [reflexivity|].
  rewrite H0. reflexivity.
Qed.

Hypothesis cmp_total : forall a b, 0 < cmp a b -> cmp b a <= 0.
Hypothesis cmp_trans :
  forall a b c, cmp a b <= 0 -> cmp b c <= 0 -> cmp a c <= 0.

Lemma insertSorted_sorted a l :
  StronglySorted (notAfter cmp) l ->
  StronglySorted (notAfter cmp) (insertSorted cmp a l).
Proof.
  induction 1 as [|b l Hl IH Hb]; simpl.
  - constructor; constructor.
  - destruct (Z.leb_spec (cmp a b) 0) as [Hab|Hab].
    + constructor; [constructor; assumption|].
      constructor; [exact Hab|].
      eapply List.Forall_impl; [|exact Hb].
      intros c Hbc. eapply cmp_trans; eassumption.
    + constructor; [exact IH|].
      apply List.Forall_forall. intros c Hc.
      apply (Permutation_in _ (insertSorted_perm a l)) in Hc.
      destruct Hc as [<- | Hc].
      * apply cmp_total, Hab.
      * revert c Hc. apply List.Forall_forall, Hb.
Qed.

Lemma sortElements_sorted l :
  StronglySorted (notAfter cmp) (sortElements cmp l).
Proof.
  induction l as [|a l IH]; simpl.
  - constructor.
  - apply insertSorted_sorted, IH.
Qed.

End SortElements.

Lemma StronglySorted_impl {A} (R S : A -> A -> Prop) l :
  (forall a b, R a b -> S a b) -> StronglySorted R l -> StronglySorted S l.
Proof.
  intros HRS. induction 1 as [|a l Hl IH Ha]; constructor; [exact IH|].
  eapply List.Forall_impl; [|exact Ha]. intros b. apply HRS.
Qed.

(** ** The order for each sort key *)

Lemma sortElements_ordered localeCompare sortBy l :
  consistent localeCompare ->
  ordered localeCompare sortBy
    (sortElements (compareStats localeCompare sortBy) l).
Proof.
  intros [Htot Htrans]. unfold ordered.
  destruct (String.eqb sortBy "name") eqn:E1;
    [|destruct (String.eqb sortBy "totalTimePlayed") eqn:E2;
      [|destruct (String.eqb sortBy "accuracy") eqn:E3; [|exact I]]].
  - eapply StronglySorted_impl; [|apply sortElements_sorted].
    + unfold compareStats. rewrite E1. intros a b H. exact H.
    + unfold compareStats. rewrite E1. intros a b. apply Htot.
    + unfold compareStats. rewrite E1. intros a b c. apply Htrans.
  - eapply StronglySorted_impl; [|apply sortElements_sorted].
    + unfold compareStats, notAfter. rewrite E1, E2. intros a b H. lia.
    + unfold compareStats. rewrite E1, E2. intros a b. lia.
    + unfold compareStats. rewrite E1, E2. intros a b c. lia.
  - eapply StronglySorted_impl; [|apply sortElements_sorted].
    + unfold compareStats, notAfter. rewrite E1, E2, E3. intros a b H. lia.
    + unfold compareStats. rewrite E1, E2, E3. intros a b. lia.
    + unfold compareStats. rewrite E1, E2, E3. intros a b c. lia.
Qed.

Lemma sortElements_other_key localeCompare sortBy l :
  sortBy <> "name" -> sortBy <> "totalTimePlayed" -> sortBy <> "accuracy" ->
  sortElements (compareStats localeCompare sortBy) l = l.
Proof.
  intros H1 H2 H3. apply sortElements_ties. intros a b.
  unfold compareStats.
  apply String.eqb_neq in H1, H2, H3. rewrite H1, H2, H3. reflexivity.
Qed.

(** ** The copy in the store *)

Lemma spread_fresh (st : Store) src arr :
  st !! src = Some arr ->
  exists copy,
    spread st src = Some (<[copy := arr]> st, copy)
    /\ st !! copy = None /\ copy <> src.
Proof.
  intros Hsrc. unfold spread. rewrite Hsrc.
  exists (fresh (dom st)).
  assert (Hfresh : st !! fresh (dom st) = None)
    by (apply not_elem_of_dom, is_fresh).
  split; [reflexivity|]. split; [exact Hfresh|].
  intros E. rewrite E in Hfresh. congruence.
Qed.

(** C10.  For every store, every array [gameStats] in it and every sort
    key, [sortedStats] is a new array (the store is otherwise unchanged and
    [gameStats] keeps its elements in their order) that holds a permutation
    of the elements of [gameStats]: ascending by [localeCompare] of the
    names for "name", descending by [totalTimePlayed] and by [accuracy] for
    these keys, and in the order of [gameStats] for any other key. *)
Theorem sortedStats_sorted_copy localeCompare (st : Store) gameStats stats
    sortBy :
  consistent localeCompare ->
  st !! gameStats = Some stats ->
  exists (st' : Store) copy sorted,
    sortedStats localeCompare st gameStats sortBy = Some (st', copy)
    /\ st' !! copy = Some sorted
    /\ copy <> gameStats
    /\ st' !! gameStats = Some stats
    /\ (forall r, r <> copy -> st' !! r = st !! r)
    /\ Permutation sorted stats
    /\ ordered localeCompare sortBy sorted
    /\ (sortBy <> "name" -> sortBy <> "totalTimePlayed" ->
        sortBy <> "accuracy" -> sorted = stats).
Proof.
  intros Hcons Hsrc.
  destruct (spread_fresh st gameStats stats Hsrc)
    as (copy & Hspread & Hnew & Hne).
  exists (<[copy := sortElements (compareStats localeCompare sortBy) stats]>
            (<[copy := stats]> st)), copy,
    (sortElements (compareStats localeCompare sortBy) stats).
  split.
  { unfold sortedStats. rewrite Hspread. unfold sort.
    rewrite lookup_insert_eq. reflexivity. }
  split; [apply lookup_insert_eq|].
  split; [exact Hne|].
  split; [rewrite !lookup_insert_ne by auto; exact Hsrc|].
  split; [intros r Hr; rewrite !lookup_insert_ne by auto; reflexivity|].
  split; [apply sortElements_perm|].
  split; [apply sortElements_ordered, Hcons|].
  apply sortElements_other_key.
Qed.

Lemma sortedStats_sorted_copy_witness :
  let byLength (s t : string) :=
    Z.of_nat (String.length s) - Z.of_nat (String.length t) in
  let chess := mkGameStat "chess" "Chess" 3600 80 4 1 [600; 3000] in
  let sudoku := mkGameStat "sudoku" "Sudoku" 7200 95 9 0 [7200] in
  let st : Store := {[ 0%nat := [chess; sudoku] ]} in
  consistent byLength
  /\ st !! 0%nat = Some [chess; sudoku]
  /\ exists (st' : Store) copy sorted,
       sortedStats byLength st 0%nat "accuracy" = Some (st', copy)
       /\ st' !! copy = Some sorted
       /\ copy <> 0%nat
       /\ st' !! 0%nat = Some [chess; sudoku]
       /\ (forall r, r <> copy -> st' !! r = st !! r)
       /\ Permutation sorted [chess; sudoku]
       /\ ordered byLength "accuracy" sorted
       /\ ("accuracy" <> "name" -> "accuracy" <> "totalTimePlayed" ->
           "accuracy" <> "accuracy" -> sorted = [chess; sudoku]).
Proof.
  intros byLength chess sudoku st.
  assert (H1 : consistent byLength)
    by (unfold consistent, byLength; split; intros; lia).
  assert (H2 : st !! 0%nat = Some [chess; sudoku]) by reflexivity.
  split; [exact H1|]. split; [exact H2|].
  exact (sortedStats_sorted_copy byLength st 0%nat [chess; sudoku]
           "accuracy" H1 H2).
Defined.

End StatisticsFacts.

(** * Further properties of the cube model *)

Module CubeMoreFacts.
Import Cube CubeView CubeFacts.

(** ** One cubie under two turns *)

Lemma inLayer_other_axis axis value p :
  axis <> 0 -> axis <> 1 -> axis <> 2 -> inLayer axis value p = false.
Proof.
  intros H0 H1 H2. destruct (inLayer axis value p) eqn:E; [|reflexivity].
  apply inLayer_axis in E. lia.
Qed.

(** Unfolds the turns of a cubie once the axis is a numeral, leaving the
    tests of the coordinate against the slice values. *)
Ltac unfold_turns :=
  unfold turnCubie, rotateCubie, inLayer, rotatePos, axisName, arrayGet;
  simpl; rewrite ?orb_false_r.

Ltac turn_cases c :=
  destruct c as [[[x y] z] ori st k]; destruct ori;
  repeat (unfold_turns;
          match goal with
          | |- context [?a =? ?b] =>
              is_var a; destruct (Z.eqb_spec a b); simpl
          | |- context [if ?b then _ else _] => is_var b; destruct b; simpl
          end);
  unfold_turns; rewrite ?Z.opp_involutive;
  solve [reflexivity | exfalso; lia].

(** Turns about one axis commute on every cubie. *)
Lemma turnCubie_commute axis v1 cw1 v2 cw2 c :
  turnCubie axis v1 cw1 (turnCubie axis v2 cw2 c)
  = turnCubie axis v2 cw2 (turnCubie axis v1 cw1 c).
Proof.
  destruct (Z.eq_dec axis 0) as [->|H0]; [turn_cases c|].
  destruct (Z.eq_dec axis 1) as [->|H1]; [turn_cases c|].
  destruct (Z.eq_dec axis 2) as [->|H2]; [turn_cases c|].
  rewrite !turnCubie_outside; auto using inLayer_other_axis.
Qed.

(** Off the y axis the opposite turn undoes a turn on every cubie. *)
Lemma turnCubie_back axis value cw c :
  axis <> 1 ->
  turnCubie axis value (negb cw) (turnCubie axis value cw c) = c.
Proof.
  intros Hy.
  destruct (Z.eq_dec axis 0) as [->|H0]; [turn_cases c|].
  destruct (Z.eq_dec axis 2) as [->|H2]; [turn_cases c|].
  rewrite !turnCubie_outside; auto using inLayer_other_axis.
Qed.

(** On the y axis the opposite turn brings the cubie back with front and
    back, and left and right, of its orientation exchanged. *)
Lemma turnCubie_back_y value cw c :
  turnCubie 1 value (negb cw) (turnCubie 1 value cw c)
  = if inLayer 1 value (pos c)
    then {| pos := pos c; orientation := swapSides (orientation c);
            stickers := stickers c; key := key c |}
    else c.
Proof. unfold swapSides. turn_cases c. Qed.

(** Two turns are the same half turn in either direction. *)
Lemma turnCubie_twice axis value c :
  turnCubie axis value true (turnCubie axis value true c)
  = turnCubie axis value false (turnCubie axis value false c).
Proof.
  destruct (Z.eq_dec axis 0) as [->|H0]; [turn_cases c|].
  destruct (Z.eq_dec axis 1) as [->|H1]; [turn_cases c|].
  destruct (Z.eq_dec axis 2) as [->|H2]; [turn_cases c|].
  rewrite !turnCubie_outside; auto using inLayer_other_axis.
Qed.

(** ** Composition of layer turns *)

(** X1.  Two turns about the same axis, of the same layer or of two layers and
    in any directions, give the same cubies in either order. *)
Theorem rotateLayer_same_axis_commute cubies axis v1 cw1 v2 cw2 :
  exists first second both,
    rotateLayer cubies axis v1 cw1 = Some first
    /\ rotateLayer first axis v2 cw2 = Some both
    /\ rotateLayer cubies axis v2 cw2 = Some second
    /\ rotateLayer second axis v1 cw1 = Some both.
Proof.
  exists (map (turnCubie axis v1 cw1) cubies),
    (map (turnCubie axis v2 cw2) cubies),
    (map (turnCubie axis v2 cw2) (map (turnCubie axis v1 cw1) cubies)).
  rewrite !rotateLayer_total. repeat split.
  f_equal. rewrite !map_map. apply map_ext. intros c.
  apply turnCubie_commute.
Qed.

(** X2.  On the x and z axes (and for an axis that is none of the three) a
    turn followed by the opposite turn of the same layer gives back the
    cubies it started from. *)
Theorem rotateLayer_opposite_undoes cubies axis value cw :
  axis <> 1 ->
  exists turned,
    rotateLayer cubies axis value cw = Some turned
    /\ rotateLayer turned axis value (negb cw) = Some cubies.
Proof.
  intros Hy. exists (map (turnCubie axis value cw) cubies).
  rewrite !rotateLayer_total. split; [reflexivity|]. f_equal.
  rewrite map_map. rewrite <- (map_id cubies) at 2.
  apply map_ext. intros c. apply turnCubie_back, Hy.
Qed.

Lemma rotateLayer_opposite_undoes_witness :
  2 <> 1
  /\ exists turned,
       rotateLayer createSolvedCubeState 2 1 true = Some turned
       /\ rotateLayer turned 2 1 (negb true) = Some createSolvedCubeState.
Proof.
  assert (H : 2 <> 1) by discriminate.
  split; [exact H|].
  exact (rotateLayer_opposite_undoes createSolvedCubeState 2 1 true H).
Defined.

(** X3.  On the y axis a turn followed by the opposite turn of the same layer
    puts every cubie back in its place with its stickers and key, but each
    cubie of the layer comes back with front and back, and left and right,
    of its orientation exchanged. *)
Theorem rotateLayer_y_opposite_swaps_sides cubies value cw :
  exists turned,
    rotateLayer cubies 1 value cw = Some turned
    /\ rotateLayer turned 1 value (negb cw)
       = Some (map (fun c =>
                      if inLayer 1 value (pos c)
                      then {| pos := pos c;
                              orientation := swapSides (orientation c);
                              stickers := stickers c; key := key c |}
                      else c)
                 cubies).
Proof.
  exists (map (turnCubie 1 value cw) cubies).
  rewrite !rotateLayer_total. split; [reflexivity|]. f_equal.
  rewrite map_map. apply map_ext. intros c. apply turnCubie_back_y.
Qed.

(** X4.  Two equal turns of a layer give the same cubies clockwise and
    counter-clockwise. *)
Theorem rotateLayer_half_turn cubies axis value :
  rotateLayerTimes 2 cubies axis value true
  = rotateLayerTimes 2 cubies axis value false.
Proof.
  simpl. rewrite !rotateLayer_total. f_equal.
  rewrite !map_map. apply map_ext. intros c. apply turnCubie_twice.
Qed.

(** ** Calls that turn nothing *)

(** X5.  When no cubie has the slice value as its coordinate along the axis, in
    particular when the axis is none of 0, 1, 2, [rotateLayer] returns the
    cubies as they are and raises no error. *)
Theorem rotateLayer_empty_layer cubies axis value cw :
  List.Forall (fun c => coord axis (pos c) <> Some value) cubies ->
  rotateLayer cubies axis value cw = Some cubies.
Proof.
  intros H. rewrite rotateLayer_total. f_equal.
  rewrite <- (map_id cubies) at 2. apply map_ext_in. intros c Hc.
  apply turnCubie_outside, coord_inLayer.
  revert c Hc. apply List.Forall_forall, H.
Qed.

Lemma rotateLayer_empty_layer_witness :
  List.Forall (fun c => coord 3 (pos c) <> Some 1) createSolvedCubeState
  /\ rotateLayer createSolvedCubeState 3 1 true = Some createSolvedCubeState.
Proof.
  assert (H : List.Forall (fun c => coord 3 (pos c) <> Some 1)
                createSolvedCubeState).
  { apply List.Forall_forall. intros c _. destruct (pos c) as [[x y] z].
    discriminate. }
  split; [exact H|].
  exact (rotateLayer_empty_layer createSolvedCubeState 3 1 true H).
Defined.

(** X6.  [rotate] with a layer name that is none of the six letters leaves the
    cubies as they are. *)
Theorem rotate_unknown_layer layer cw cubies :
  ~ In layer moves -> rotate layer cw cubies = Some cubies.
Proof.
  intros H. unfold rotate, setCubiesIf.
  repeat match goal with
         | |- context [String.eqb layer ?s] =>
             destruct (String.eqb_spec layer s) as [->|_];
             [exfalso; apply H; simpl; tauto|]
         end.
  reflexivity.
Qed.

Lemma rotate_unknown_layer_witness :
  ~ In "M" moves
  /\ rotate "M" true createSolvedCubeState = Some createSolvedCubeState.
Proof.
  assert (H : ~ In "M" moves).
  { simpl. intros [H|[H|[H|[H|[H|[H|H]]]]]]; try discriminate H. exact H. }
  split; [exact H|].
  exact (rotate_unknown_layer "M" true createSolvedCubeState H).
Defined.

(** ** Keys *)

Lemma NoDup_solved_keys : List.NoDup (map key createSolvedCubeState).
Proof.
  apply NoDup_ListNoDup.
  apply (bool_decide_unpack (NoDup (map key createSolvedCubeState))).
  vm_compute. reflexivity.
Qed.

(** X7.  In every state reachable from the solved one the cubies carry, in
    order, the keys given at creation, and these are pairwise distinct. *)
Theorem keys_stable_and_distinct s :
  reachable s ->
  map key s = map key createSolvedCubeState /\ List.NoDup (map key s).
Proof.
  intros Hs.
  assert (E : map key s = map key createSolvedCubeState).
  { apply (reachable_inv
             (fun s => map key s = map key createSolvedCubeState));
      [|reflexivity|exact Hs].
    intros cubies axis value cw H. rewrite map_turnCubie_key. exact H. }
  split; [exact E|]. rewrite E. apply NoDup_solved_keys.
Qed.

Lemma keys_stable_and_distinct_witness :
  exists turned twice,
    rotate "R" true createSolvedCubeState = Some turned
    /\ rotate "U" false turned = Some twice
    /\ map pos twice <> map pos createSolvedCubeState
    /\ reachable twice
    /\ map key twice = map key createSolvedCubeState
    /\ List.NoDup (map key twice).
Proof.
  exists (map (turnCubie 0 1 true) createSolvedCubeState),
    (map (turnCubie 1 1 false)
       (map (turnCubie 0 1 true) createSolvedCubeState)).
  assert (E1 : rotate "R" true createSolvedCubeState
               = Some (map (turnCubie 0 1 true) createSolvedCubeState))
    by (vm_compute; reflexivity).
  assert (E2 : rotate "U" false
                 (map (turnCubie 0 1 true) createSolvedCubeState)
               = Some (map (turnCubie 1 1 false)
                         (map (turnCubie 0 1 true) createSolvedCubeState)))
    by (vm_compute; reflexivity).
  assert (Hr : reachable
                 (map (turnCubie 1 1 false)
                    (map (turnCubie 0 1 true) createSolvedCubeState))).
  { eapply reachable_step; [|eapply step_rotate; exact E2].
    eapply reachable_step; [apply reachable_init|].
    eapply step_rotate; exact E1. }
  split; [exact E1|]. split; [exact E2|].
  split; [intros E; vm_compute in E; discriminate E|].
  split; [exact Hr|].
  exact (keys_stable_and_distinct _ Hr).
Defined.

(** ** The colours that a cubie shows *)

Lemma getByName_label st f : getByName st (label f) = Some (get st f).
Proof. destruct f; reflexivity. Qed.

Lemma faceOrder_values ori :
  Permutation (map (get ori) faceOrder) (values ori).
Proof. unfold values, faceOrder, faces. simpl. solve_Permutation. Qed.

(** The colour shown for the sticker that a face label names. *)
Lemma cubieColors_by_label ori st :
  bijective ori ->
  Permutation (cubieColors ori st)
    (map (fun f =>
            match getByName st (label f) with
            | Some color => if (color =? "")%string then "#222" else color
            | None => "#222"
            end)
       faces).
Proof.
  intros Hb.
  pose (shown := fun name =>
          match getByName st name with
          | Some color => if (color =? "")%string then "#222" else color
          | None => "#222"
          end).
  change (cubieColors ori st) with (map shown (map (get ori) faceOrder)).
  rewrite <- (map_map label shown).
  apply Permutation_map. rewrite faceOrder_values. exact Hb.
Qed.

Lemma shown_stickers st :
  List.Forall (fun v => v <> "") (values st) ->
  map (fun f =>
         match getByName st (label f) with
         | Some color => if (color =? "")%string then "#222" else color
         | None => "#222"
         end)
    faces
  = values st.
Proof.
  intros Hne. unfold values. apply map_ext_in. intros f Hf.
  rewrite getByName_label.
  destruct (String.eqb_spec (get st f) ""); [|reflexivity].
  exfalso. rewrite List.Forall_forall in Hne.
  apply (Hne (get st f)); [|assumption].
  apply in_map, Hf.
Qed.

(** X8.  A cubie whose orientation is a bijection and whose stickers are all
    non-empty strings shows exactly its six stickers, each once, on its six
    faces. *)
Theorem cubie_shows_its_stickers ori st :
  bijective ori ->
  List.Forall (fun v => v <> "") (values st) ->
  Permutation (cubieColors ori st) (values st).
Proof.
  intros Hb Hne. rewrite <- (shown_stickers st Hne).
  apply cubieColors_by_label, Hb.
Qed.

Lemma cubie_shows_its_stickers_witness :
  bijective (rotateOrientation ax_z identityOrientation true)
  /\ List.Forall (fun v => v <> "") (values (getInitialCubieColors 1 1 1))
  /\ Permutation
       (cubieColors (rotateOrientation ax_z identityOrientation true)
          (getInitialCubieColors 1 1 1))
       (values (getInitialCubieColors 1 1 1)).
Proof.
  assert (Hb : bijective (rotateOrientation ax_z identityOrientation true)).
  { apply rotateOrientation_bijective.
    exact (Permutation_refl (map label faces)). }
  assert (Hne : List.Forall (fun v => v <> "")
                  (values (getInitialCubieColors 1 1 1)))
    by (repeat constructor; discriminate).
  split; [exact Hb|]. split; [exact Hne|].
  exact (cubie_shows_its_stickers _ _ Hb Hne).
Defined.

Lemma solved_stickers_nonempty :
  List.Forall (fun c => List.Forall (fun v => v <> "") (values (stickers c)))
    createSolvedCubeState.
Proof.
  apply List.Forall_forall. intros c Hc. vm_compute in Hc.
  repeat (destruct Hc as [<- | Hc];
          [repeat constructor; discriminate|]).
  destruct Hc.
Qed.

(** X9.  In every state reachable from the solved one every cubie shows
    exactly its six stickers, each once: the turns rearrange the colours of
    a cubie and never lose or repeat one. *)
Theorem reachable_cubies_show_their_stickers s :
  reachable s ->
  List.Forall (fun c =>
      Permutation (cubieColors (orientation c) (stickers c))
        (values (stickers c))) s.
Proof.
  intros Hs.
  assert (H : List.Forall (fun c =>
                bijective (orientation c)
                /\ List.Forall (fun v => v <> "") (values (stickers c))) s).
  { apply (reachable_inv (fun s => List.Forall (fun c =>
                bijective (orientation c)
                /\ List.Forall (fun v => v <> "") (values (stickers c))) s));
      [| |exact Hs].
    - intros cubies axis value cw H. apply List.Forall_map.
      eapply List.Forall_impl; [|exact H].
      intros c [Hb Hne]. split; [apply turnCubie_bijective, Hb|].
      rewrite turnCubie_stickers. exact Hne.
    - apply List.Forall_forall. intros c Hc. split.
      + revert c Hc. apply List.Forall_forall, solved_bijective.
      + revert c Hc. apply List.Forall_forall, solved_stickers_nonempty. }
  eapply List.Forall_impl; [|exact H].
  intros c [Hb Hne]. rewrite <- (shown_stickers (stickers c) Hne).
  apply cubieColors_by_label, Hb.
Qed.

Lemma reachable_cubies_show_their_stickers_witness :
  exists turned twice,
    rotate "R" true createSolvedCubeState = Some turned
    /\ rotate "U" false turned = Some twice
    /\ map orientation twice <> map orientation createSolvedCubeState
    /\ reachable twice
    /\ List.Forall (fun c =>
           Permutation (cubieColors (orientation c) (stickers c))
             (values (stickers c))) twice.
Proof.
  exists (map (turnCubie 0 1 true) createSolvedCubeState),
    (map (turnCubie 1 1 false)
       (map (turnCubie 0 1 true) createSolvedCubeState)).
  assert (E1 : rotate "R" true createSolvedCubeState
               = Some (map (turnCubie 0 1 true) createSolvedCubeState))
    by (vm_compute; reflexivity).
  assert (E2 : rotate "U" false
                 (map (turnCubie 0 1 true) createSolvedCubeState)
               = Some (map (turnCubie 1 1 false)
                         (map (turnCubie 0 1 true) createSolvedCubeState)))
    by (vm_compute; reflexivity).
  assert (Hr : reachable
                 (map (turnCubie 1 1 false)
                    (map (turnCubie 0 1 true) createSolvedCubeState))).
  { eapply reachable_step; [|eapply step_rotate; exact E2].
    eapply reachable_step; [apply reachable_init|].
    eapply step_rotate; exact E1. }
  split; [exact E1|]. split; [exact E2|].
  split; [intros E; vm_compute in E; discriminate E|].
  split; [exact Hr|].
  exact (reachable_cubies_show_their_stickers _ Hr).
Defined.

(** ** The stickers of the solved cube *)

(** X10.  A cubie of the cube at position (x, y, z) gets |x| + |y| + |z|
    coloured stickers from [getInitialCubieColors]: three on a corner, two
    on an edge, one on a face centre, none on the core. *)
Theorem coloured_stickers_count x y z :
  In (x, y, z) cubePositions ->
  colouredCount (getInitialCubieColors x y z)
  = Z.abs x + Z.abs y + Z.abs z.
Proof.
  intros H. simpl in H.
  repeat (destruct H as [H | H]; [inversion H; reflexivity|]). destruct H.
Qed.

Lemma coloured_stickers_count_witness :
  In (1, -1, 0) cubePositions
  /\ colouredCount (getInitialCubieColors 1 (-1) 0)
     = Z.abs 1 + Z.abs (-1) + Z.abs 0.
Proof.
  assert (H : In (1, -1, 0) cubePositions) by (simpl; tauto).
  split; [exact H|].
  exact (coloured_stickers_count 1 (-1) 0 H).
Defined.

End CubeMoreFacts.

(** * Properties of the practice board *)

Module BoardFacts.
Import Sudoku Board.

Lemma In_cellIndices n index :
  In index (cellIndices n) <-> 0 <= index < Z.of_nat n.
Proof.
  unfold cellIndices. rewrite in_map_iff. split.
  - intros (k & <- & Hk). apply in_seq in Hk. lia.
  - intros H. exists (Z.to_nat index). split; [lia|].
    apply in_seq. lia.
Qed.

(** ** The cells of the chess board *)

Lemma chessCell_range index :
  In index (cellIndices 64) ->
  0 <= chessRow index < 8 /\ 0 <= chessCol index < 8
  /\ index = 8 * chessRow index + chessCol index.
Proof.
  intros H. apply In_cellIndices in H. unfold chessRow, chessCol.
  rewrite Z.rem_mod_nonneg by lia.
  pose proof (Z.div_mod index 8). pose proof (Z.mod_pos_bound index 8).
  lia.
Qed.

(** X11.  The 64 cells of the chess board are the 64 squares: a cell index gives
    a row and a column from 0 to 7 with index = 8 * row + col, and every
    such row and column come from exactly that index. *)
Theorem chess_cells_are_squares :
  (forall index,
     In index (cellIndices 64) ->
     0 <= chessRow index < 8 /\ 0 <= chessCol index < 8
     /\ index = 8 * chessRow index + chessCol index)
  /\ (forall row col,
        0 <= row < 8 -> 0 <= col < 8 ->
        In (8 * row + col) (cellIndices 64)
        /\ chessRow (8 * row + col) = row
        /\ chessCol (8 * row + col) = col).
Proof.
  split; [exact chessCell_range|].
  intros row col Hr Hc. unfold chessRow, chessCol.
  rewrite In_cellIndices, Z.rem_mod_nonneg by lia.
  assert (E : 8 * row + col = col + row * 8) by lia. rewrite E.
  rewrite Z.div_add, Z.mod_add, Z.div_small, Z.mod_small by lia.
  lia.
Qed.

Lemma chess_cells_are_squares_witness :
  In 63 (cellIndices 64)
  /\ (0 <= chessRow 63 < 8 /\ 0 <= chessCol 63 < 8
      /\ 63 = 8 * chessRow 63 + chessCol 63)
  /\ 0 <= 7 < 8 /\ 0 <= 0 < 8
  /\ In (8 * 7 + 0) (cellIndices 64)
  /\ chessRow (8 * 7 + 0) = 7 /\ chessCol (8 * 7 + 0) = 0.
Proof.
  assert (H1 : In 63 (cellIndices 64)) by (apply In_cellIndices; simpl; lia).
  assert (H2 : 0 <= 7 < 8) by lia.
  assert (H3 : 0 <= 0 < 8) by lia.
  split; [exact H1|].
  split; [exact (proj1 chess_cells_are_squares 63 H1)|].
  split; [exact H2|]. split; [exact H3|].
  exact (proj2 chess_cells_are_squares 7 0 H2 H3).
Defined.

Lemma isLight_even row col : isLight row col = Z.even (row + col).
Proof.
  unfold isLight. rewrite Zeven_mod.
  destruct (Z.eqb_spec (Z.rem (row + col) 2) 0) as [E|E];
    destruct (Z.eqb_spec ((row + col) mod 2) 0) as [E'|E'];
    try reflexivity; exfalso.
  - apply Z.rem_divide in E; [|lia]. apply Z.mod_divide in E; [|lia]. lia.
  - apply Z.mod_divide in E'; [|lia]. apply Z.rem_divide in E'; [|lia]. lia.
Qed.

(** X12.  The board is chequered: the squares to the right of and below a
    square have the other colour. *)
Theorem chess_board_is_chequered row col :
  isLight row (col + 1) = negb (isLight row col)
  /\ isLight (row + 1) col = negb (isLight row col).
Proof.
  rewrite !isLight_even.
  replace (row + (col + 1)) with (Z.succ (row + col)) by lia.
  replace (row + 1 + col) with (Z.succ (row + col)) by lia.
  rewrite Z.even_succ, <- Z.negb_even. split; reflexivity.
Qed.

(** ** Clicks on squares *)

Lemma squareName_spec row col :
  0 <= row < 8 -> 0 <= col < 8 ->
  squareName row col
  = Some (String (ascii_of_N (Z.to_N (97 + col)))
            (String (ascii_of_N (Z.to_N (56 - row))) "")).
Proof.
  intros Hr Hc.
  assert (row = 0 \/ row = 1 \/ row = 2 \/ row = 3 \/ row = 4 \/ row = 5
          \/ row = 6 \/ row = 7) as Hrow by lia.
  assert (col = 0 \/ col = 1 \/ col = 2 \/ col = 3 \/ col = 4 \/ col = 5
          \/ col = 6 \/ col = 7) as Hcol by lia.
  destruct Hrow as [->|[->|[->|[->|[->|[->|[->| ->]]]]]]];
    destruct Hcol as [->|[->|[->|[->|[->|[->|[->| ->]]]]]]];
    vm_compute; reflexivity.
Qed.

Lemma squareName_valid row col name :
  0 <= row < 8 -> 0 <= col < 8 ->
  squareName row col = Some name -> isSquareName name = true.
Proof.
  intros Hr Hc E. rewrite squareName_spec in E by assumption.
  inversion E. unfold isSquareName, inRange.
  rewrite !N_ascii_embedding by lia.
  change (N_of_ascii "a") with 97%N. change (N_of_ascii "h") with 104%N.
  change (N_of_ascii "1") with 49%N. change (N_of_ascii "8") with 56%N.
  repeat (apply andb_true_intro; split); apply N.leb_le; lia.
Qed.

(** X13.  A click on a square of an active board appends the name of the square
    (file letter a to h by column, rank 8 to 1 by row) to the move history,
    keeping the earlier moves, and reports it in the feedback. *)
Theorem handleSquareClick_records_square st row col :
  isActive st = true -> 0 <= row < 8 -> 0 <= col < 8 ->
  exists name,
    squareName row col = Some name
    /\ isSquareName name = true
    /\ handleSquareClick st row col
       = Some {| isActive := true; moves := moves st ++ [name];
                 feedback := ("Clicked square " ++ name)%string |}.
Proof.
  intros Ha Hr Hc. eexists. split; [apply squareName_spec; assumption|].
  split.
  - eapply squareName_valid; [exact Hr|exact Hc|].
    apply squareName_spec; assumption.
  - unfold handleSquareClick. rewrite Ha. simpl.
    rewrite squareName_spec by assumption. reflexivity.
Qed.

Lemma handleSquareClick_records_square_witness :
  isActive (handleStart initialBoard) = true /\ 0 <= 7 < 8 /\ 0 <= 0 < 8
  /\ exists name,
       squareName 7 0 = Some name
       /\ isSquareName name = true
       /\ handleSquareClick (handleStart initialBoard) 7 0
          = Some {| isActive := true;
                    moves := moves (handleStart initialBoard) ++ [name];
                    feedback := ("Clicked square " ++ name)%string |}.
Proof.
  assert (H1 : isActive (handleStart initialBoard) = true) by reflexivity.
  assert (H2 : 0 <= 7 < 8) by lia.
  assert (H3 : 0 <= 0 < 8) by lia.
  split; [exact H1|]. split; [exact H2|]. split; [exact H3|].
  exact (handleSquareClick_records_square _ 7 0 H1 H2 H3).
Defined.

(** X14.  Different squares of the board have different names. *)
Theorem squareName_injective row1 col1 row2 col2 :
  0 <= row1 < 8 -> 0 <= col1 < 8 -> 0 <= row2 < 8 -> 0 <= col2 < 8 ->
  squareName row1 col1 = squareName row2 col2 ->
  row1 = row2 /\ col1 = col2.
Proof.
  intros Hr1 Hc1 Hr2 Hc2 E.
  rewrite !squareName_spec in E by assumption.
  inversion E as [[Ef Er]].
  apply (f_equal N_of_ascii) in Ef, Er.
  rewrite !N_ascii_embedding in Ef, Er by lia.
  lia.
Qed.

Lemma squareName_injective_witness :
  0 <= 3 < 8 /\ 0 <= 4 < 8
  /\ squareName 3 4 = squareName 3 4 /\ 3 = 3 /\ 4 = 4.
Proof.
  assert (H1 : 0 <= 3 < 8) by lia.
  assert (H2 : 0 <= 4 < 8) by lia.
  assert (H3 : squareName 3 4 = squareName 3 4) by reflexivity.
  split; [exact H1|]. split; [exact H2|]. split; [exact H3|].
  exact (squareName_injective 3 4 3 4 H1 H2 H1 H2 H3).
Defined.

(** ** States of the board *)

Lemma afterSudokuInput_fields st row col value :
  isActive (afterSudokuInput st row col value) = isActive st
  /\ moves (afterSudokuInput st row col value) = moves st
  /\ (isActive st = false ->
      feedback (afterSudokuInput st row col value) = feedback st).
Proof.
  unfold afterSudokuInput, handleSudokuInput.
  destruct (isActive st) eqn:Ha; simpl.
  - destruct (test cellPattern value); simpl; rewrite ?Ha; auto.
    repeat split. discriminate.
  - rewrite Ha. auto.
Qed.

(** X15.  Whatever the sequence of starts, resets, clicks and inputs, a board
    that is not active has an empty move history and no feedback: clicks
    and inputs leave an idle board as it is. *)
Theorem idle_board_is_blank st :
  boardReachable st ->
  isActive st = false -> moves st = [] /\ feedback st = "".
Proof.
  induction 1 as [|st st' Hreach IH Hstep]; [auto|].
  destruct Hstep as [st|st|st index st' Hin Hclick|st index value Hin].
  - discriminate.
  - auto.
  - unfold handleSquareClick in Hclick.
    destruct (isActive st) eqn:Ha; simpl in Hclick.
    + destruct (squareName _ _); [|discriminate].
      inversion Hclick. subst st'. simpl. discriminate.
    + inversion Hclick. subst st'. intros _. apply IH. reflexivity.
  - destruct (afterSudokuInput_fields st (sudokuRow index) (sudokuCol index)
                value) as (Ea & Em & Ef).
    rewrite Ea, Em. intros Ha. rewrite (Ef Ha). apply IH, Ha.
Qed.

Lemma idle_board_is_blank_witness :
  boardReachable (handleReset (handleStart initialBoard))
  /\ isActive (handleReset (handleStart initialBoard)) = false
  /\ moves (handleReset (handleStart initialBoard)) = []
  /\ feedback (handleReset (handleStart initialBoard)) = "".
Proof.
  assert (H1 : boardReachable (handleReset (handleStart initialBoard))).
  { eapply board_next; [|apply board_reset].
    eapply board_next; [apply board_init|apply board_start]. }
  assert (H2 : isActive (handleReset (handleStart initialBoard)) = false)
    by reflexivity.
  split; [exact H1|]. split; [exact H2|].
  exact (idle_board_is_blank _ H1 H2).
Defined.

(** X16.  Every entry of the move history is the name of a square of the board,
    in every state the board can reach. *)
Theorem recorded_moves_are_squares st :
  boardReachable st ->
  List.Forall (fun move => isSquareName move = true) (moves st).
Proof.
  induction 1 as [|st st' Hreach IH Hstep]; [constructor|].
  destruct Hstep as [st|st|st index st' Hin Hclick|st index value Hin].
  - exact IH.
  - constructor.
  - unfold handleSquareClick in Hclick.
    destruct (isActive st); simpl in Hclick.
    + destruct (squareName _ _) as [name|] eqn:En; [|discriminate].
      inversion Hclick. subst st'. simpl.
      apply List.Forall_app. split; [exact IH|].
      constructor; [|constructor].
      destruct (chessCell_range index Hin) as (Hr & Hc & _).
      exact (squareName_valid _ _ _ Hr Hc En).
    + inversion Hclick. subst st'. exact IH.
  - destruct (afterSudokuInput_fields st (sudokuRow index) (sudokuCol index)
                value) as (_ & Em & _).
    rewrite Em. exact IH.
Qed.

Lemma recorded_moves_are_squares_witness :
  let clicked :=
    {| isActive := true; moves := ["a1"; "h8"];
       feedback := "Clicked square h8" |} in
  exists first,
    handleSquareClick (handleStart initialBoard) (chessRow 56) (chessCol 56)
    = Some first
    /\ handleSquareClick first (chessRow 7) (chessCol 7) = Some clicked
    /\ boardReachable clicked
    /\ List.Forall (fun move => isSquareName move = true) (moves clicked).
Proof.
  intros clicked.
  exists {| isActive := true; moves := ["a1"];
            feedback := "Clicked square a1" |}.
  assert (E1 : handleSquareClick (handleStart initialBoard) (chessRow 56)
                 (chessCol 56)
               = Some {| isActive := true; moves := ["a1"];
                         feedback := "Clicked square a1" |})
    by (vm_compute; reflexivity).
  assert (E2 : handleSquareClick
                 {| isActive := true; moves := ["a1"];
                    feedback := "Clicked square a1" |}
                 (chessRow 7) (chessCol 7)
               = Some clicked)
    by (vm_compute; reflexivity).
  assert (H56 : In 56 (cellIndices 64))
    by (apply In_cellIndices; simpl; lia).
  assert (H7 : In 7 (cellIndices 64))
    by (apply In_cellIndices; simpl; lia).
  assert (Hr : boardReachable clicked).
  { eapply board_next; [|eapply (board_click _ 7); [exact H7|exact E2]].
    eapply board_next; [|eapply (board_click _ 56); [exact H56|exact E1]].
    eapply board_next; [apply board_init|apply board_start]. }
  split; [exact E1|]. split; [exact E2|]. split; [exact Hr|].
  exact (recorded_moves_are_squares _ Hr).
Defined.

(** ** The cells of the sudoku grid *)

(** X17.  The 81 cells of the sudoku grid: a cell index gives a row and a column
    from 0 to 8 with index = 9 * row + col, and every such row and column
    come from exactly that index. *)
Theorem sudoku_cells_are_grid :
  (forall index,
     In index (cellIndices 81) ->
     0 <= sudokuRow index < 9 /\ 0 <= sudokuCol index < 9
     /\ index = 9 * sudokuRow index + sudokuCol index)
  /\ (forall row col,
        0 <= row < 9 -> 0 <= col < 9 ->
        In (9 * row + col) (cellIndices 81)
        /\ sudokuRow (9 * row + col) = row
        /\ sudokuCol (9 * row + col) = col).
Proof.
  split.
  - intros index H. apply In_cellIndices in H. unfold sudokuRow, sudokuCol.
    rewrite Z.rem_mod_nonneg by lia.
    pose proof (Z.div_mod index 9). pose proof (Z.mod_pos_bound index 9).
    lia.
  - intros row col Hr Hc. unfold sudokuRow, sudokuCol.
    rewrite In_cellIndices, Z.rem_mod_nonneg by lia.
    assert (E : 9 * row + col = col + row * 9) by lia. rewrite E.
    rewrite Z.div_add, Z.mod_add, Z.div_small, Z.mod_small by lia.
    lia.
Qed.

Lemma sudoku_cells_are_grid_witness :
  In 80 (cellIndices 81)
  /\ (0 <= sudokuRow 80 < 9 /\ 0 <= sudokuCol 80 < 9
      /\ 80 = 9 * sudokuRow 80 + sudokuCol 80)
  /\ 0 <= 4 < 9 /\ 0 <= 5 < 9
  /\ In (9 * 4 + 5) (cellIndices 81)
  /\ sudokuRow (9 * 4 + 5) = 4 /\ sudokuCol (9 * 4 + 5) = 5.
Proof.
  assert (H1 : In 80 (cellIndices 81)) by (apply In_cellIndices; simpl; lia).
  assert (H2 : 0 <= 4 < 9) by lia.
  assert (H3 : 0 <= 5 < 9) by lia.
  split; [exact H1|].
  split; [exact (proj1 sudoku_cells_are_grid 80 H1)|].
  split; [exact H2|]. split; [exact H3|].
  exact (proj2 sudoku_cells_are_grid 4 5 H2 H3).
Defined.

(** X18.  In the grid a thick border follows a row or column exactly when the
    next row or column exists and lies in another 3 x 3 box; and two boxes
    that share a side are shaded differently. *)
Theorem sudoku_box_layout :
  (forall n, 0 <= n < 9 ->
     (thickBorderAfter n = true <-> n + 1 < 9 /\ boxOf (n + 1) <> boxOf n))
  /\ (forall row col, 0 <= row -> 0 <= col ->
        isAlternateBox row (col + 3) = negb (isAlternateBox row col)
        /\ isAlternateBox (row + 3) col = negb (isAlternateBox row col)).
Proof.
  split.
  - intros n Hn.
    assert (n = 0 \/ n = 1 \/ n = 2 \/ n = 3 \/ n = 4 \/ n = 5 \/ n = 6
            \/ n = 7 \/ n = 8) as Hcases by lia.
    destruct Hcases as [->|[->|[->|[->|[->|[->|[->|[->| ->]]]]]]]];
      (split;
       [ intros H; vm_compute in H;
         first [ discriminate H
               | split; [lia | vm_compute; discriminate] ]
       | intros [H1 H2];
         first [ reflexivity
               | exfalso; first [ lia | apply H2; reflexivity ] ] ]).
  - intros row col Hr Hc. unfold isAlternateBox, boxOf.
    replace (col + 3) with (col + 1 * 3) by lia.
    replace (row + 3) with (row + 1 * 3) by lia.
    rewrite !Z.div_add by lia.
    pose proof (Z.div_pos row 3). pose proof (Z.div_pos col 3).
    set (r := row / 3) in *. set (c := col / 3) in *.
    rewrite !Z.rem_mod_nonneg by lia.
    replace (r + (c + 1)) with (r + c + 1) by lia.
    replace (r + 1 + c) with (r + c + 1) by lia.
    pose proof (Z.mod_pos_bound (r + c) 2).
    pose proof (Z.mod_pos_bound (r + c + 1) 2).
    pose proof (Z.div_mod (r + c) 2). pose proof (Z.div_mod (r + c + 1) 2).
    destruct (Z.eqb_spec ((r + c + 1) mod 2) 1),
      (Z.eqb_spec ((r + c) mod 2) 1); simpl; split; try reflexivity;
      exfalso; lia.
Qed.

Lemma sudoku_box_layout_witness :
  0 <= 2 < 9
  /\ (thickBorderAfter 2 = true <-> 2 + 1 < 9 /\ boxOf (2 + 1) <> boxOf 2)
  /\ 0 <= 4 /\ 0 <= 1
  /\ isAlternateBox 4 (1 + 3) = negb (isAlternateBox 4 1)
  /\ isAlternateBox (4 + 3) 1 = negb (isAlternateBox 4 1).
Proof.
  assert (H1 : 0 <= 2 < 9) by lia.
  assert (H2 : 0 <= 4) by lia.
  assert (H3 : 0 <= 1) by lia.
  split; [exact H1|].
  split; [exact (proj1 sudoku_box_layout 2 H1)|].
  split; [exact H2|]. split; [exact H3|].
  exact (proj2 sudoku_box_layout 4 1 H2 H3).
Defined.

End BoardFacts.

(** * Properties of the texts of the statistics page *)

Module StatsViewFacts.
Import StatsView.

Lemma formatTime_fields seconds :
  formatTime seconds
  = (timeField (seconds / 3600) ++ ":"
     ++ timeField (Z.rem seconds 3600 / 60) ++ ":"
     ++ timeField (Z.rem seconds 60))%string.
Proof. reflexivity. Qed.

(** A number below 100 fills a field of two digits that read back as the
    number. *)
Lemma timeField_two_digits v :
  0 <= v < 100 ->
  String.length (timeField v) = 2%nat /\ digitsValue (timeField v) = v.
Proof.
  intros Hv.
  assert (Hall : forallb (fun k =>
              (String.length (timeField (Z.of_nat k)) =? 2)%nat
              && (digitsValue (timeField (Z.of_nat k)) =? Z.of_nat k))
            (seq 0 100) = true) by (vm_compute; reflexivity).
  rewrite forallb_forall in Hall.
  specialize (Hall (Z.to_nat v)). rewrite Z2Nat.id in Hall by lia.
  destruct (andb_prop _ _ (Hall ltac:(apply in_seq; lia))) as [Hl Hd].
  split; [apply Nat.eqb_eq, Hl|apply Z.eqb_eq, Hd].
Qed.

Lemma append_same_length (a a' b b' : string) :
  String.length a = String.length a' ->
  (a ++ b)%string = (a' ++ b')%string -> a = a' /\ b = b'.
Proof.
  revert a'. induction a as [|c a IH]; intros [|c' a'] Hlen E;
    simpl in *; try discriminate.
  - auto.
  - inversion E as [[Ec Erest]]. injection Hlen as Hlen.
    destruct (IH a' Hlen Erest) as [-> ->]. auto.
Qed.

Lemma time_parts seconds :
  0 <= seconds < 360000 ->
  0 <= seconds / 3600 < 100
  /\ 0 <= Z.rem seconds 3600 / 60 < 60
  /\ 0 <= Z.rem seconds 60 < 60
  /\ seconds / 3600 * 3600 + Z.rem seconds 3600 / 60 * 60
     + Z.rem seconds 60 = seconds.
Proof.
  intros H. rewrite !Z.rem_mod_nonneg by lia.
  pose proof (Z.div_mod seconds 3600).
  pose proof (Z.mod_pos_bound seconds 3600).
  pose proof (Z.div_mod (seconds mod 3600) 60).
  pose proof (Z.mod_pos_bound (seconds mod 3600) 60).
  pose proof (Z.div_mod seconds 60). pose proof (Z.mod_pos_bound seconds 60).
  assert (E : seconds mod 60 = (seconds mod 3600) mod 60).
  { replace 3600 with (60 * 60) by reflexivity.
    rewrite Z.rem_mul_r by lia.
    replace (seconds mod 60 + 60 * ((seconds / 60) mod 60))
      with (seconds mod 60 + ((seconds / 60) mod 60) * 60) by lia.
    rewrite Z.mod_add by lia. rewrite Z.mod_mod by lia. reflexivity. }
  lia.
Qed.

(** X19.  For a duration below 100 hours [formatTime] writes HH:MM:SS: three
    fields of two digits that read back as hours, minutes below 60 and
    seconds below 60 adding up to the duration. *)
Theorem formatTime_hh_mm_ss seconds :
  0 <= seconds < 360000 ->
  exists hh mm ss,
    formatTime seconds = (hh ++ ":" ++ mm ++ ":" ++ ss)%string
    /\ String.length hh = 2%nat /\ String.length mm = 2%nat
    /\ String.length ss = 2%nat
    /\ 0 <= digitsValue mm < 60 /\ 0 <= digitsValue ss < 60
    /\ digitsValue hh * 3600 + digitsValue mm * 60 + digitsValue ss
       = seconds.
Proof.
  intros H. destruct (time_parts seconds H) as (Hh & Hm & Hs & Esum).
  destruct (timeField_two_digits (seconds / 3600) Hh) as [Lh Dh].
  destruct (timeField_two_digits (Z.rem seconds 3600 / 60) ltac:(lia))
    as [Lm Dm].
  destruct (timeField_two_digits (Z.rem seconds 60) ltac:(lia)) as [Ls Ds].
  exists (timeField (seconds / 3600)), (timeField (Z.rem seconds 3600 / 60)),
    (timeField (Z.rem seconds 60)).
  rewrite Dh, Dm, Ds. repeat split; try assumption; try lia.
Qed.

Lemma formatTime_hh_mm_ss_witness :
  0 <= 86399 < 360000
  /\ exists hh mm ss,
       formatTime 86399 = (hh ++ ":" ++ mm ++ ":" ++ ss)%string
       /\ String.length hh = 2%nat /\ String.length mm = 2%nat
       /\ String.length ss = 2%nat
       /\ 0 <= digitsValue mm < 60 /\ 0 <= digitsValue ss < 60
       /\ digitsValue hh * 3600 + digitsValue mm * 60 + digitsValue ss
          = 86399.
Proof.
  assert (H : 0 <= 86399 < 360000) by lia.
  split; [exact H|]. exact (formatTime_hh_mm_ss 86399 H).
Defined.

(** X20.  Two different durations below 100 hours are written differently. *)
Theorem formatTime_injective a b :
  0 <= a < 360000 -> 0 <= b < 360000 ->
  formatTime a = formatTime b -> a = b.
Proof.
  intros Ha Hb E. rewrite !formatTime_fields in E.
  destruct (time_parts a Ha) as (Hha & Hma & Hsa & Ea).
  destruct (time_parts b Hb) as (Hhb & Hmb & Hsb & Eb).
  destruct (timeField_two_digits _ Hha) as [Lha Dha].
  destruct (timeField_two_digits _ Hhb) as [Lhb Dhb].
  destruct (timeField_two_digits (Z.rem a 3600 / 60) ltac:(lia))
    as [Lma Dma].
  destruct (timeField_two_digits (Z.rem b 3600 / 60) ltac:(lia))
    as [Lmb Dmb].
  destruct (timeField_two_digits (Z.rem a 60) ltac:(lia)) as [Lsa Dsa].
  destruct (timeField_two_digits (Z.rem b 60) ltac:(lia)) as [Lsb Dsb].
  apply append_same_length in E as [Eh E]; [|congruence].
  apply append_same_length in E as [_ E]; [|reflexivity].
  apply append_same_length in E as [Em E]; [|congruence].
  apply append_same_length in E as [_ Es]; [|reflexivity].
  rewrite <- Ea, <- Eb, <- Dha, <- Dhb, <- Dma, <- Dmb, <- Dsa, <- Dsb.
  rewrite Eh, Em, Es. reflexivity.
Qed.

Lemma formatTime_injective_witness :
  0 <= 61 < 360000
  /\ formatTime 61 = formatTime 61 /\ 61 = 61.
Proof.
  assert (H : 0 <= 61 < 360000) by lia.
  assert (E : formatTime 61 = formatTime 61) by reflexivity.
  split; [exact H|]. split; [exact E|].
  exact (formatTime_injective 61 61 H H E).
Defined.

(** X21.  For a session of less than 2^32 seconds the minutes of the
    label are the duration in minutes rounded to the nearest, while the
    seconds are the remainder of the division by 60: the label counts a
    minute too many as soon as the seconds are 30 or more, and adds up to
    the duration only when they are below 30. *)
Theorem sessionLabel_rounds_minutes v :
  0 <= v < 4294967296 ->
  sessionLabel v
  = Some (numToString (v / 60 + (if (Z.rem v 60 <? 30)%Z then 0 else 1)%Z)
          ++ "m " ++ numToString (Z.rem v 60) ++ "s")%string
  /\ (60 * roundDiv v 60 + Z.rem v 60 = v <-> Z.rem v 60 < 30).
Proof.
  intros Hv.
  assert (E : roundDiv v 60 = v / 60 + (if Z.rem v 60 <? 30 then 0 else 1)).
  { unfold roundDiv. rewrite Z.rem_mod_nonneg by lia.
    pose proof (Z.div_mod v 60). pose proof (Z.mod_pos_bound v 60).
    destruct (Z.ltb_spec (v mod 60) 30).
    - symmetry. apply (Z.div_unique _ _ _ (2 * (v mod 60) + 60)); lia.
    - symmetry. apply (Z.div_unique _ _ _ (2 * (v mod 60) - 60)); lia. }
  split.
  - unfold sessionLabel.
    destruct (Z.ltb_spec (Z.abs v) 4294967296) as [_|Hbig]; [|lia].
    rewrite E. reflexivity.
  - rewrite E. rewrite Z.rem_mod_nonneg by lia.
    pose proof (Z.div_mod v 60). pose proof (Z.mod_pos_bound v 60).
    destruct (Z.ltb_spec (v mod 60) 30); lia.
Qed.

Lemma sessionLabel_rounds_minutes_witness :
  0 <= 90 < 4294967296
  /\ sessionLabel 90
     = Some (numToString (90 / 60
                          + (if (Z.rem 90 60 <? 30)%Z then 0 else 1)%Z)
             ++ "m " ++ numToString (Z.rem 90 60) ++ "s")%string
  /\ (60 * roundDiv 90 60 + Z.rem 90 60 = 90 <-> Z.rem 90 60 < 30).
Proof.
  assert (H : 0 <= 90 < 4294967296) by lia.
  split; [exact H|]. exact (sessionLabel_rounds_minutes 90 H).
Defined.

End StatsViewFacts.
